(** * RewriteImports: the import migration of src/utils/RewriteImports.ts

    A shallow embedding of [convert] and [rewriteImports].  Script text is a
    [string]; source offsets are [nat] (JavaScript's [substring] clamps a
    negative offset to 0, which is what truncated subtraction on [nat]
    yields).  The acorn parser and the helpers of Terminal/DirectoryHelpers
    are interfaces: the development is parametric in them, and concrete
    instances are supplied for the worked examples. *)

From Stdlib Require Import String Ascii List Arith Lia Bool Permutation Sorted.
Import ListNotations.
Open Scope string_scope.

(** ** JavaScript string primitives used by the source *)

Module JS.

(** The line feed written "\n" in the source. *)
Definition nl : string := String "010"%char EmptyString.

Fixpoint take (n : nat) (s : string) : string :=
  match n, s with
  | S n', String c s' => String c (take n' s')
  | _, _ => EmptyString
  end.

Fixpoint drop (n : nat) (s : string) : string :=
  match n, s with
  | S n', String _ s' => drop n' s'
  | _, _ => s
  end.

(** [s.substring(a, b)]: both indices are clamped to the length and
    swapped when [a > b]. *)
Definition substring (s : string) (a b : nat) : string :=
  let len := String.length s in
  let a' := Nat.min a len in
  let b' := Nat.min b len in
  let lo := Nat.min a' b' in
  let hi := Nat.max a' b' in
  take (hi - lo) (drop lo s).

(** [s.substring(a)]: the end index defaults to the length. *)
Definition substring_from (s : string) (a : nat) : string :=
  substring s a (String.length s).

(** [s.startsWith(p)] *)
Definition startsWith (s p : string) : bool := String.prefix p s.

(** [s.endsWith(p)] *)
Definition endsWith (s p : string) : bool :=
  (drop (String.length s - String.length p) s =? p)%string.

(** [a || b] on values that are a string or null: null and the empty
    string are falsy. *)
Definition or (a b : option string) : option string :=
  match a with
  | Some EmptyString | None => b
  | Some _ => a
  end.

(** [a == b] where [a] is a string or null and [b] is a string. *)
Definition loose_eq (a : option string) (b : string) : bool :=
  match a with
  | Some a' => (a' =? b)%string
  | None => false
  end.

End JS.

(** ** Data model *)

(** The Script class of Script/Script.ts, as far as this file uses it:
    [new Script(filename, code, server)]. *)
Module Script.
Record t := new { filename : string; code : string; server : string }.
End Script.

(** An ImportDeclaration node of the acorn tree parsed with [ranges: true]:
    [node.source.value], [node.source.range] and [node.range]. *)
Record ImportDeclaration := {
  source_value : string;
  source_range : nat * nat;
  range : nat * nat
}.

(** The records pushed onto [importNodes]. *)
Record ImportNode := {
  filename : string;
  start : nat;
  end_ : nat;
  statementStart : nat;
  statementEnd : nat
}.

(** The external collaborators of [convert]. *)

(** acorn's [parse] followed by acorn-walk's [walk.simple]: the
    ImportDeclaration nodes in the order the walker visits them, or the
    text of the thrown error. *)
Class Acorn := {
  parse : string -> string + list ImportDeclaration
}.

(** Terminal/DirectoryHelpers.  [convert] passes the result of
    [getAllParentDirectories] to [evaluateFilePath] untouched, so its type
    is left to the instance; [evaluateFilePath] returns a path or null. *)
Class DirectoryHelpers := {
  Directories : Type;
  getAllParentDirectories : string -> Directories;
  evaluateFilePath : string -> option Directories -> option string;
  areFilesEqual : string -> string -> bool;
  areImportsEquals : string -> string -> bool
}.

(** ** convert *)

Definition comment : string :=
  "// This import statement may be broken by a recent upgrade. Check the path to the script.".

(** The walker callback: one import node per ImportDeclaration. *)
Definition onImportDeclaration (node : ImportDeclaration) : ImportNode :=
  {| filename := source_value node;
     start := fst (source_range node) + 1;
     end_ := snd (source_range node) - 1;
     statementStart := fst (range node);
     statementEnd := snd (range node) |}.

(** [importNodes.sort((a, b) => b.start - a.start)]: a stable sort, an
    element stays in front of a later one unless the comparator is
    positive, that is unless the later one starts further right. *)
Fixpoint sort_insert (a : ImportNode) (l : list ImportNode) : list ImportNode :=
  match l with
  | [] => [a]
  | b :: l' => if (start b <=? start a)%nat then a :: l else b :: sort_insert a l'
  end.

Definition sort_nodes (l : list ImportNode) : list ImportNode :=
  fold_right sort_insert [] l.

(** The comment block put in front of a rewritten statement. *)
Definition original_line_block (orig : string) : string :=
  JS.nl ++
  "// =============================== original line ===============================" ++ JS.nl ++
  "/**" ++ JS.nl ++
  " * " ++ orig ++ JS.nl ++
  " */" ++ JS.nl ++
  "// =============================================================================" ++ JS.nl.

(** The two assignments shared by both rewriting branches: replace the
    specifier, then put the block in front of the statement. *)
Definition rewrite_import (transformedCode : string) (node : ImportNode)
    (specifier : string) : string :=
  let orig := JS.substring transformedCode (statementStart node) (statementEnd node) in
  let transformedCode :=
    JS.substring transformedCode 0 (start node) ++ specifier ++
    JS.substring_from transformedCode (end_ node) in
  JS.substring transformedCode 0 (statementStart node) ++
  original_line_block orig ++
  JS.substring_from transformedCode (statementStart node).

(** Line 104, as written: both operands are [substring(0, statementStart)]. *)
Definition place_comment (transformedCode : string) (node : ImportNode) : string :=
  JS.substring transformedCode 0 (statementStart node) ++ JS.nl ++ comment ++ JS.nl ++
  JS.substring transformedCode 0 (statementStart node).

Section Convert.

Context {acorn : Acorn} {helpers : DirectoryHelpers}.

(** [scripts.filter((s) => areImportsEquals(s.filename, filename))] with
    the leading "./" of the specifier stripped. *)
Definition matchingScripts (scripts : list Script.t) (node : ImportNode)
  : list Script.t :=
  let filename :=
    if JS.startsWith (filename node) "./"
    then JS.substring_from (filename node) 2
    else filename node in
  filter (fun s => areImportsEquals (Script.filename s) filename) scripts.

(** [evaluateFilePath(node.filename, scriptDirectory) ||
     evaluateFilePath(node.filename + ".js", scriptDirectory)] *)
Definition directoryFilename (scriptDirectory : Directories) (node : ImportNode)
  : option string :=
  JS.or (evaluateFilePath (filename node) (Some scriptDirectory))
        (evaluateFilePath (filename node ++ ".js") (Some scriptDirectory)).

Definition rootMatchingScripts (scripts : list Script.t) (filename : string)
  : list Script.t :=
  filter (fun s => areFilesEqual (Script.filename s) filename) scripts.

(** One iteration of the loop over the sorted import nodes. *)
Definition convert_node (scripts : list Script.t) (scriptDirectory : Directories)
    (transformedCode : string) (node : ImportNode) : string :=
  match matchingScripts scripts node with
  | matchingScript :: _ =>
      let newFilename :=
        evaluateFilePath ("/" ++ Script.filename matchingScript) None in
      if JS.loose_eq newFilename (filename node)
      then transformedCode
      else rewrite_import transformedCode node ("/" ++ Script.filename matchingScript)
  | [] =>
      match directoryFilename scriptDirectory node with
      | Some filename =>
          match rootMatchingScripts scripts filename with
          | matchingScript :: _ =>
              rewrite_import transformedCode node (Script.filename matchingScript)
          | [] => place_comment transformedCode node
          end
      | None => place_comment transformedCode node
      end
  end.

(** The loop, given the import nodes found by the walk. *)
Definition convert_nodes (scripts : list Script.t) (scriptDirectory : Directories)
    (code : string) (importNodes : list ImportNode) : string :=
  fold_left (convert_node scripts scriptDirectory) (sort_nodes importNodes) code.

(** [convert]: [inl] is the message of the Error thrown on a parse
    failure, [inr] the converted code. *)
Definition convert (script : Script.t) (scripts : list Script.t) : string + string :=
  let scriptDirectory := getAllParentDirectories (Script.filename script) in
  match parse (Script.code script) with
  | inl err => inl ("Error processing script for migration, parse error: " ++ err)
  | inr ast =>
      inr (convert_nodes scripts scriptDirectory (Script.code script)
             (map onImportDeclaration ast))
  end.

End Convert.

(** ** rewriteImports *)

(** A server of GetAllServers(), as far as this file uses it. *)
Module Server.
Record t := mk { hostname : string; scripts : list Script.t }.
End Server.

(** The filter of the inner loop. *)
Definition isMigrated (s : Script.t) : bool :=
  JS.endsWith (Script.filename s) ".js" || JS.endsWith (Script.filename s) ".ns".

Definition backupFilename (script : Script.t) : string :=
  let backupFilename := Script.filename script in
  let backupFilename :=
    if negb (JS.startsWith backupFilename "/") then "/" ++ backupFilename
    else backupFilename in
  "/BACKUP" ++ backupFilename.

Definition changed_entry (script : Script.t) (hostname : string) : string :=
  "// Changed import statements in " ++ Script.filename script ++ " on " ++ hostname.

(** [err] is the message of the caught Error, which the template literal
    renders as "Error: " followed by the message. *)
Definition failed_entry (script : Script.t) (hostname err : string) : string :=
  "// Failed to convert " ++ Script.filename script ++ " on " ++ hostname ++
  ", reason: " ++ ("Error: " ++ err) ++ JS.nl.

Section RewriteImports.

Context {acorn : Acorn} {helpers : DirectoryHelpers}.

(** The loop over one server's scripts.  The script objects are shared
    between [server.scripts] and the filtered array the loop runs over, so
    an assignment to [script.code] is seen through [server.scripts] by the
    calls of [convert] that follow: [done] holds the scripts already
    visited (with their new code), [todo] those still to visit, and
    [done ++ todo] is [server.scripts] as it stands. *)
Fixpoint scripts_loop (hostname : string) (done todo backups : list Script.t)
    (txt : string) : list Script.t * list Script.t * string :=
  match todo with
  | [] => (done, backups, txt)
  | script :: rest =>
      if isMigrated script then
        match convert script (done ++ todo) with
        | inr code =>
            if (Script.code script =? code)%string then
              scripts_loop hostname (done ++ [script]) rest backups txt
            else
              let backup :=
                Script.new (backupFilename script) (Script.code script)
                           (Script.server script) in
              let script' :=
                Script.new (Script.filename script) code (Script.server script) in
              scripts_loop hostname (done ++ [script']) rest (backups ++ [backup])
                           (txt ++ changed_entry script hostname)
        | inl err =>
            scripts_loop hostname (done ++ [script]) rest backups
                         (txt ++ failed_entry script hostname err)
        end
      else scripts_loop hostname (done ++ [script]) rest backups txt
  end.

(** The loop over the servers; [server.scripts] ends up as the visited
    scripts followed by the backups. *)
Fixpoint servers_loop (servers : list Server.t) (txt : string)
  : list Server.t * string :=
  match servers with
  | [] => ([], txt)
  | server :: rest =>
      let '(scripts, backups, txt) :=
        scripts_loop (Server.hostname server) [] (Server.scripts server) [] txt in
      let '(rest', txt) := servers_loop rest txt in
      (Server.mk (Server.hostname server) (scripts ++ backups) :: rest', txt)
  end.

(** [rewriteImports]: the servers afterwards, and the file written to the
    home computer, if any. *)
Definition rewriteImports (servers : list Server.t)
  : list Server.t * option (string * string) :=
  let '(servers', txt) := servers_loop servers "" in
  (servers',
   if (txt =? "")%string then None
   else Some ("IMPORT_DETECTED_CHANGES.txt", txt)).

End RewriteImports.

(** ** Instances for the worked examples *)

(** Modelled from the spec: the module Terminal/DirectoryHelpers is not part
    of the sources at hand.  The instance follows section 4.1 of the
    specification: [normalize] resolves "." and ".." segments against an
    ordered list of base directories (most specific first) and yields null
    when no candidate is a valid path; [pathsEqualExact] compares paths that
    may or may not carry the leading separator; and
    [pathsEqualUnderImportConvention] strips a leading "./" from the
    compared side and then compares the same way. *)
Module SpecHelpers.

Fixpoint split (s cur : string) : list string :=
  match s with
  | EmptyString => [cur]
  | String c s' =>
      if (c =? "/")%char then cur :: split s' EmptyString
      else split s' (cur ++ String c EmptyString)
  end.

Fixpoint resolve (segs stack : list string) : option (list string) :=
  match segs with
  | [] => Some (rev stack)
  | seg :: segs' =>
      if (seg =? "")%string then None
      else if (seg =? ".")%string then
        match segs' with [] => None | _ => resolve segs' stack end
      else if (seg =? "..")%string then
        match stack, segs' with
        | _ :: stack', _ :: _ => resolve segs' stack'
        | _, _ => None
        end
      else resolve segs' (seg :: stack)
  end.

(** An absolute path with its dot segments resolved, or null. *)
Definition normalize_absolute (path : string) : option string :=
  match split path EmptyString with
  | EmptyString :: segs =>
      match resolve segs [] with
      | Some (seg :: segs') => Some ("/" ++ String.concat "/" (seg :: segs'))
      | _ => None
      end
  | _ => None
  end.

Fixpoint first_valid (path : string) (bases : list string) : option string :=
  match bases with
  | [] => None
  | base :: bases' =>
      match normalize_absolute (base ++ path) with
      | Some p => Some p
      | None => first_valid path bases'
      end
  end.

Definition normalize (path : string) (baseDirectories : option (list string))
  : option string :=
  if JS.startsWith path "/" then normalize_absolute path
  else match baseDirectories with
       | Some bases => first_valid path bases
       | None => normalize_absolute ("/" ++ path)
       end.

Fixpoint ancestors (dirs : list string) (here : string) : list string :=
  match dirs with
  | [] => [here]
  | d :: dirs' => ancestors dirs' (here ++ d ++ "/") ++ [here]
  end.

(** Every ancestor directory of a file path, most specific first. *)
Definition parentDirectories (path : string) : list string :=
  let segs := split path EmptyString in
  let segs := match segs with EmptyString :: segs' => segs' | _ => segs end in
  ancestors (removelast segs) "/".

Definition withLeadingSeparator (p : string) : string :=
  if JS.startsWith p "/" then p else "/" ++ p.

Definition pathsEqualExact (a b : string) : bool :=
  (withLeadingSeparator a =? withLeadingSeparator b)%string.

Definition pathsEqualUnderImportConvention (a b : string) : bool :=
  pathsEqualExact a (if JS.startsWith b "./" then JS.substring_from b 2 else b).

#[export] Instance helpers : DirectoryHelpers := {|
  Directories := list string;
  getAllParentDirectories := parentDirectories;
  evaluateFilePath := normalize;
  areFilesEqual := pathsEqualExact;
  areImportsEquals := pathsEqualUnderImportConvention
|}.

End SpecHelpers.

(** Modelled from the spec: the Import Locator of section 4.2 is the acorn
    library, which is not part of the sources at hand.  This scanner accepts
    the fragment of module syntax made of white space, comments and import
    declarations whose specifier has no escape sequence, and reports a
    syntax error on anything else; for each declaration it yields the range
    of the quoted specifier and the range of the statement, in source
    order.  Its error messages leave out the position acorn appends. *)
Module ImportScanner.

Inductive mode :=
| Top
| Slash
| LineComment
| BlockComment
| BlockStar
| Clause (stmt : nat)
| Literal (quote : ascii) (stmt src : nat) (value : string)
| Closed (stmt src stop : nat) (value : string).

Definition is_space (c : ascii) : bool :=
  ((c =? " ") || (c =? "010") || (c =? "009") || (c =? "013"))%char.

Definition is_quote (c : ascii) : bool :=
  ((c =? "034") || (c =? "'"))%char.

Definition unexpected : string := "SyntaxError: Unexpected token".

Definition declaration (stmt src stop stmt_stop : nat) (value : string)
  : ImportDeclaration :=
  {| source_value := value;
     source_range := (src, stop);
     range := (stmt, stmt_stop) |}.

Fixpoint scan (m : mode) (pos : nat) (s : string) (acc : list ImportDeclaration)
  : string + list ImportDeclaration :=
  match s with
  | EmptyString =>
      match m with
      | Top | LineComment => inr (rev acc)
      | Closed stmt src stop value =>
          inr (rev (declaration stmt src stop stop value :: acc))
      | BlockComment | BlockStar => inl "SyntaxError: Unterminated comment"
      | Literal _ _ _ _ => inl "SyntaxError: Unterminated string constant"
      | Slash | Clause _ => inl unexpected
      end
  | String c s' =>
      match m with
      | Top =>
          if is_space c then scan Top (S pos) s' acc
          else if (c =? "/")%char then scan Slash (S pos) s' acc
          else if String.prefix "import" s then scan (Clause pos) (S pos) s' acc
          else inl unexpected
      | Slash =>
          if (c =? "/")%char then scan LineComment (S pos) s' acc
          else if (c =? "*")%char then scan BlockComment (S pos) s' acc
          else inl unexpected
      | LineComment =>
          if (c =? "010")%char then scan Top (S pos) s' acc
          else scan LineComment (S pos) s' acc
      | BlockComment =>
          if (c =? "*")%char then scan BlockStar (S pos) s' acc
          else scan BlockComment (S pos) s' acc
      | BlockStar =>
          if (c =? "/")%char then scan Top (S pos) s' acc
          else if (c =? "*")%char then scan BlockStar (S pos) s' acc
          else scan BlockComment (S pos) s' acc
      | Clause stmt =>
          if is_quote c then scan (Literal c stmt pos EmptyString) (S pos) s' acc
          else if (c =? ";")%char then inl unexpected
          else scan (Clause stmt) (S pos) s' acc
      | Literal quote stmt src value =>
          if (c =? quote)%char then scan (Closed stmt src (S pos) value) (S pos) s' acc
          else if ((c =? "\") || (c =? "010"))%char
               then inl "SyntaxError: Unterminated string constant"
          else scan (Literal quote stmt src (value ++ String c EmptyString)) (S pos) s' acc
      | Closed stmt src stop value =>
          if (c =? ";")%char
          then scan Top (S pos) s' (declaration stmt src stop (S pos) value :: acc)
          else if (c =? "010")%char
          then scan Top (S pos) s' (declaration stmt src stop stop value :: acc)
          else if is_space c then scan (Closed stmt src stop value) (S pos) s' acc
          else inl unexpected
      end
  end.

#[export] Instance acorn : Acorn := {|
  parse := fun code => scan Top 0 code []
|}.

End ImportScanner.


(** ** Vocabulary for the statements *)

(** The branch of the loop body taken for one import node, as a value: the
    legacy-root match that leads to a rewrite, the legacy-root match that
    is already in root-relative form, the directory-relative match, or none. *)
Inductive Outcome :=
| RootRewrite (newSpecifier : string)
| DirectoryRewrite (newSpecifier : string)
| AlreadyValid
| Unresolved.

(** What becomes of a script in the inner loop of [rewriteImports]. *)
Inductive Migration :=
| NoChange
| Changed (code : string)
| Failed (err : string).

Section Vocabulary.

Context {acorn : Acorn} {helpers : DirectoryHelpers}.

Definition resolve (scripts : list Script.t) (scriptDirectory : Directories)
    (node : ImportNode) : Outcome :=
  match matchingScripts scripts node with
  | matchingScript :: _ =>
      if JS.loose_eq (evaluateFilePath ("/" ++ Script.filename matchingScript) None)
                     (filename node)
      then AlreadyValid
      else RootRewrite ("/" ++ Script.filename matchingScript)
  | [] =>
      match directoryFilename scriptDirectory node with
      | Some filename =>
          match rootMatchingScripts scripts filename with
          | matchingScript :: _ => DirectoryRewrite (Script.filename matchingScript)
          | [] => Unresolved
          end
      | None => Unresolved
      end
  end.

Definition apply_outcome (transformedCode : string) (node : ImportNode)
    (o : Outcome) : string :=
  match o with
  | RootRewrite specifier | DirectoryRewrite specifier =>
      rewrite_import transformedCode node specifier
  | AlreadyValid => transformedCode
  | Unresolved => place_comment transformedCode node
  end.

(** [known] is the first element of [scripts] that satisfies [p]. *)
Definition first_match (p : Script.t -> bool) (scripts : list Script.t)
    (known : Script.t) : Prop :=
  exists before after,
    scripts = (before ++ known :: after)%list /\
    p known = true /\
    Forall (fun s => p s = false) before.

(** The specifier as the legacy-root strategy compares it. *)
Definition legacy_specifier (node : ImportNode) : string :=
  if JS.startsWith (filename node) "./"
  then JS.substring_from (filename node) 2
  else filename node.

(** The legacy-root strategy finds [known]. *)
Definition legacy_root_match (scripts : list Script.t) (node : ImportNode)
    (known : Script.t) : Prop :=
  first_match (fun s => areImportsEquals (Script.filename s) (legacy_specifier node))
              scripts known.

(** The legacy-root strategy finds nothing. *)
Definition no_legacy_root_match (scripts : list Script.t) (node : ImportNode)
  : Prop :=
  Forall (fun s => areImportsEquals (Script.filename s) (legacy_specifier node) = false)
         scripts.

(** [path] is what normalizing the specifier against the importer's
    directories yields: the literal specifier if that gives a path, else
    the specifier with ".js" appended. *)
Definition directory_path (scriptDirectory : Directories) (node : ImportNode)
    (path : string) : Prop :=
  (evaluateFilePath (filename node) (Some scriptDirectory) = Some path /\
   path <> "") \/
  ((evaluateFilePath (filename node) (Some scriptDirectory) = None \/
    evaluateFilePath (filename node) (Some scriptDirectory) = Some "") /\
   evaluateFilePath (filename node ++ ".js") (Some scriptDirectory) = Some path).

(** The directory-relative strategy finds [known] for [path]. *)
Definition directory_match (scripts : list Script.t) (path : string)
    (known : Script.t) : Prop :=
  first_match (fun s => areFilesEqual (Script.filename s) path) scripts known.

(** The text [pre ++ head ++ old ++ tail ++ post] with the statement
    [head ++ old ++ tail] at the node's statement range and [old] at its
    specifier range. *)
Definition located (node : ImportNode) (pre head old tail : string) : Prop :=
  statementStart node = String.length pre /\
  start node = String.length pre + String.length head /\
  end_ node = start node + String.length old /\
  statementEnd node = end_ node + String.length tail.

(** The body of the inner loop of [rewriteImports] for one script, given
    [server.scripts]. *)
Definition migrate (scripts : list Script.t) (script : Script.t) : Migration :=
  if isMigrated script then
    match convert script scripts with
    | inr code => if (Script.code script =? code)%string then NoChange else Changed code
    | inl err => Failed err
    end
  else NoChange.

Definition migrated_script (scripts : list Script.t) (script : Script.t) : Script.t :=
  match migrate scripts script with
  | Changed code => Script.new (Script.filename script) code (Script.server script)
  | _ => script
  end.

Definition backup_scripts (scripts : list Script.t) (script : Script.t)
  : list Script.t :=
  match migrate scripts script with
  | Changed _ =>
      [Script.new (backupFilename script) (Script.code script) (Script.server script)]
  | _ => []
  end.

Definition report_entry (hostname : string) (scripts : list Script.t)
    (script : Script.t) : string :=
  match migrate scripts script with
  | NoChange => ""
  | Changed _ => changed_entry script hostname
  | Failed err => failed_entry script hostname err
  end.

Definition scripts_report (hostname : string) (scripts todo : list Script.t) : string :=
  String.concat "" (map (report_entry hostname scripts) todo).

Definition server_report (server : Server.t) : string :=
  scripts_report (Server.hostname server) (Server.scripts server)
                 (Server.scripts server).

Definition servers_report (servers : list Server.t) : string :=
  String.concat "" (map server_report servers).

(** The file written to the home computer for a report text. *)
Definition written (txt : string) : option (string * string) :=
  if (txt =? "")%string then None else Some ("IMPORT_DETECTED_CHANGES.txt", txt).

Definition migrated_server (server : Server.t) : Server.t :=
  let scripts := Server.scripts server in
  Server.mk (Server.hostname server)
            (map (migrated_script scripts) scripts ++
             flat_map (backup_scripts scripts) scripts).

End Vocabulary.

(** ** The reference behaviour of the range-correctness property *)

Section Reference.

Context {acorn : Acorn} {helpers : DirectoryHelpers}.

(** The import is found by the legacy-root strategy and already has the
    root-relative form computed from the file found. *)
Definition already_valid (scripts : list Script.t) (node : ImportNode) : Prop :=
  exists known,
    legacy_root_match scripts node known /\
    evaluateFilePath ("/" ++ Script.filename known) None = Some (filename node).

(** Follows the specification, section 4.4, steps 3 to 5: for a rewrite, the
    text of the specifier range is replaced and the block reproducing the
    original statement is put immediately before the statement; for an
    import that could not be resolved, the warning line is put immediately
    before the statement; the no-op case changes nothing. *)
Definition spec_substitution (code : string) (node : ImportNode) (o : Outcome)
  : string :=
  match o with
  | RootRewrite specifier | DirectoryRewrite specifier =>
      rewrite_import code node specifier
  | AlreadyValid => code
  | Unresolved =>
      JS.substring code 0 (statementStart node) ++ JS.nl ++ comment ++ JS.nl ++
      JS.substring_from code (statementStart node)
  end.

(** Follows the specification, section 8, range correctness: the
    substitutions applied one at a time, each on a freshly parsed tree.
    Round [i] parses the text as it stands and substitutes at the import
    statement number [i] in source order. *)
Fixpoint spec_reparse_rounds (rounds i : nat) (scripts : list Script.t)
    (scriptDirectory : Directories) (code : string) : string :=
  match rounds with
  | 0 => code
  | S rounds' =>
      match parse code with
      | inr ast =>
          match nth_error (map onImportDeclaration ast) i with
          | Some node =>
              spec_reparse_rounds rounds' (S i) scripts scriptDirectory
                (spec_substitution code node (resolve scripts scriptDirectory node))
          | None => code
          end
      | inl _ => code
      end
  end.

Definition spec_convert_reparsing (script : Script.t) (scripts : list Script.t)
  : string + string :=
  let scriptDirectory := getAllParentDirectories (Script.filename script) in
  match parse (Script.code script) with
  | inl err => inl ("Error processing script for migration, parse error: " ++ err)
  | inr ast =>
      inr (spec_reparse_rounds (List.length ast) 0 scripts scriptDirectory
             (Script.code script))
  end.

End Reference.

(** ** Script texts cut at their import statements *)

(** One import statement of a script text and the text in front of it:
    [gap] is the text since the end of the statement before (or since the
    beginning), [head] the statement up to and with the opening quote,
    [specifier] the text between the quotes, [tail] the closing quote and
    what is left of the statement, and [value] the string the parser gives
    as [source.value]. *)
Record Statement := {
  gap : string;
  head : string;
  specifier : string;
  tail : string;
  value : string
}.

Definition statement_text (st : Statement) : string :=
  head st ++ specifier st ++ tail st.

(** The text made of the statements and of the text after the last one. *)
Fixpoint layout_text (sts : list Statement) (rest : string) : string :=
  match sts with
  | [] => rest
  | st :: sts' => gap st ++ statement_text st ++ layout_text sts' rest
  end.

Definition statement_node (offset : nat) (st : Statement) : ImportNode :=
  let statementStart := offset + String.length (gap st) in
  let start := statementStart + String.length (head st) in
  let end_ := start + String.length (specifier st) in
  {| filename := value st;
     start := start;
     end_ := end_;
     statementStart := statementStart;
     statementEnd := end_ + String.length (tail st) |}.

(** The import nodes of such a text, in source order, when the first
    statement's gap begins at [offset]. *)
Fixpoint layout_nodes (offset : nat) (sts : list Statement) : list ImportNode :=
  match sts with
  | [] => []
  | st :: sts' =>
      statement_node offset st ::
      layout_nodes (statementEnd (statement_node offset st)) sts'
  end.

(** The parser finds in the text the statements of the layout. *)
Definition locates {acorn : Acorn} (sts : list Statement) (rest : string) : Prop :=
  exists ast,
    parse (layout_text sts rest) = inr ast /\
    map onImportDeclaration ast = layout_nodes 0 sts.

Section Layout.

Context {acorn : Acorn} {helpers : DirectoryHelpers}.

(** The outcome for a specifier value; the offsets of a node play no part
    in it. *)
Definition outcome (scripts : list Script.t) (scriptDirectory : Directories)
    (value : string) : Outcome :=
  resolve scripts scriptDirectory
    {| filename := value; start := 0; end_ := 0;
       statementStart := 0; statementEnd := 0 |}.

(** What [convert] makes of the statements [sts] and the text [rest] after
    them, when [before] is the original text in front of them. *)
Fixpoint converted_text (o : string -> Outcome) (before : string)
    (sts : list Statement) (rest : string) : string :=
  match sts with
  | [] => rest
  | st :: sts' =>
      let after :=
        converted_text o (before ++ gap st ++ statement_text st) sts' rest in
      match o (value st) with
      | RootRewrite new | DirectoryRewrite new =>
          gap st ++ original_line_block (statement_text st) ++
          head st ++ new ++ tail st ++ after
      | AlreadyValid => gap st ++ statement_text st ++ after
      | Unresolved => gap st ++ JS.nl ++ comment ++ JS.nl ++ before ++ gap st
      end
  end.

(** A statement after the substitution of the specification: the block or
    the warning line joins the gap, the specifier is the new one. *)
Definition substituted (o : string -> Outcome) (st : Statement) : Statement :=
  match o (value st) with
  | RootRewrite new | DirectoryRewrite new =>
      {| gap := gap st ++ original_line_block (statement_text st);
         head := head st; specifier := new; tail := tail st; value := new |}
  | AlreadyValid => st
  | Unresolved =>
      {| gap := gap st ++ JS.nl ++ comment ++ JS.nl;
         head := head st; specifier := specifier st; tail := tail st;
         value := value st |}
  end.

(** A node for the specifier [value] alone, as [outcome] builds it. *)
Definition specifier_node (value : string) : ImportNode :=
  {| filename := value; start := 0; end_ := 0;
     statementStart := 0; statementEnd := 0 |}.

(** The legacy-root strategy finds [known] for the specifier [value], and
    "/" followed by the name of [known], which is what line 73 writes,
    reads as the same file once written: the known files that equal it
    under the import convention are those that equal the specifier, and
    the root-relative path that line 63 computes from it is that text
    itself. *)
Definition legacy_root_stable (scripts : list Script.t) (value : string)
    (known : Script.t) : Prop :=
  legacy_root_match scripts (specifier_node value) known /\
  Forall (fun s =>
            areImportsEquals (Script.filename s) ("/" ++ Script.filename known) =
            areImportsEquals (Script.filename s)
                             (legacy_specifier (specifier_node value)))
         scripts /\
  evaluateFilePath ("/" ++ Script.filename known) None =
  Some ("/" ++ Script.filename known).

End Layout.

(** ** Worked examples *)

Module Examples.

Import SpecHelpers ImportScanner.

Definition script (filename code : string) : Script.t :=
  Script.new filename code "home".

(** The known files. *)
Definition helpers_js : Script.t := script "helpers.js" "// helpers".
Definition scripts_util_js : Script.t := script "scripts/util.js" "// util".
Definition scripts_helpers_js : Script.t := script "scripts/helpers.js" "// helpers".

(** [import {f} from './helpers.js';] followed by a comment line. *)
Definition legacy_code : string :=
  "import {f} from './helpers.js';" ++ JS.nl ++ "// body".
Definition legacy_main : Script.t := script "main.js" legacy_code.
Definition legacy_node : ImportNode :=
  {| filename := "./helpers.js"; start := 17; end_ := 29;
     statementStart := 0; statementEnd := 31 |}.

(** The same import in a script of the directory /scripts. *)
Definition nested_main : Script.t := script "/scripts/main.js" legacy_code.

(** An import that is already root-relative. *)
Definition valid_code : string :=
  "import {f} from '/helpers.js';" ++ JS.nl ++ "// body".
Definition valid_main : Script.t := script "main.js" valid_code.
Definition valid_node : ImportNode :=
  {| filename := "/helpers.js"; start := 17; end_ := 28;
     statementStart := 0; statementEnd := 30 |}.

(** An import relative to the importer's directory. *)
Definition util_code : string :=
  "import {f} from 'util.js';" ++ JS.nl ++ "// body".
Definition util_main : Script.t := script "/scripts/main.js" util_code.
Definition util_node : ImportNode :=
  {| filename := "util.js"; start := 17; end_ := 24;
     statementStart := 0; statementEnd := 26 |}.

(** An import of a file that does not exist. *)
Definition missing_code : string :=
  "// header" ++ JS.nl ++ "import {f} from 'missing.js';" ++ JS.nl ++ "// body".
Definition missing_main : Script.t := script "main.js" missing_code.

Definition missing_node : ImportNode :=
  {| filename := "missing.js"; start := 27; end_ := 37;
     statementStart := 10; statementEnd := 39 |}.

(** A legacy import followed by an import of a file that does not exist. *)
Definition mixed_code : string :=
  "import './helpers.js';" ++ JS.nl ++ "import 'missing.js';" ++ JS.nl.
Definition mixed_main : Script.t := script "main.js" mixed_code.

(** Texts that are not modules, and a file that is not a script. *)
Definition broken_js : Script.t := script "broken.js" "let x = ;".
Definition notes_txt : Script.t := script "notes.txt" "import './helpers.js';".


(** Two imports in a script of the directory /scripts, cut at the
    statements. *)
Definition two_code : string :=
  "import {f} from './helpers.js';" ++ JS.nl ++
  "import {g} from 'util.js';" ++ JS.nl ++ "// body".
Definition two_main : Script.t := script "/scripts/main.js" two_code.
Definition two_statements : list Statement :=
  [{| gap := ""; head := "import {f} from '"; specifier := "./helpers.js";
      tail := "';"; value := "./helpers.js" |};
   {| gap := JS.nl; head := "import {g} from '"; specifier := "util.js";
      tail := "';"; value := "util.js" |}].
Definition two_rest : string := JS.nl ++ "// body".

(** [mixed_code] cut at its statements: the legacy import, then the
    import of the file that does not exist. *)
Definition mixed_resolved : list Statement :=
  [{| gap := ""; head := "import '"; specifier := "./helpers.js";
      tail := "';"; value := "./helpers.js" |}].
Definition mixed_unresolved : Statement :=
  {| gap := JS.nl; head := "import '"; specifier := "missing.js";
     tail := "';"; value := "missing.js" |}.

Definition two_node_f : ImportNode :=
  {| filename := "./helpers.js"; start := 17; end_ := 29;
     statementStart := 0; statementEnd := 31 |}.
Definition two_node_g : ImportNode :=
  {| filename := "util.js"; start := 49; end_ := 56;
     statementStart := 32; statementEnd := 58 |}.

(** [legacy_code] and [util_code] cut at their statement. *)
Definition legacy_statement : Statement :=
  {| gap := ""; head := "import {f} from '"; specifier := "./helpers.js";
     tail := "';"; value := "./helpers.js" |}.
Definition util_statement : Statement :=
  {| gap := ""; head := "import {f} from '"; specifier := "util.js";
     tail := "';"; value := "util.js" |}.
Definition body_rest : string := JS.nl ++ "// body".

(** An import of a file that does not exist, followed by a legacy import. *)
Definition lost_code : string :=
  "import 'missing.js';" ++ JS.nl ++ "import {f} from './helpers.js';" ++ JS.nl.
Definition lost_main : Script.t := script "main.js" lost_code.
Definition lost_unresolved : Statement :=
  {| gap := ""; head := "import '"; specifier := "missing.js";
     tail := "';"; value := "missing.js" |}.
Definition lost_rewritten : Statement :=
  {| gap := JS.nl; head := "import {f} from '"; specifier := "./helpers.js";
     tail := "';"; value := "./helpers.js" |}.

(** The same in the directory /scripts, with an import relative to it. *)
Definition dir_lost_code : string :=
  "import 'missing.js';" ++ JS.nl ++ "import {f} from 'util.js';" ++ JS.nl.
Definition dir_lost_main : Script.t := script "/scripts/main.js" dir_lost_code.
Definition dir_lost_rewritten : Statement :=
  {| gap := JS.nl; head := "import {f} from '"; specifier := "util.js";
     tail := "';"; value := "util.js" |}.

(** A known file whose name carries the leading slash, and a script that
    imports it from the root. *)
Definition lib_util_js : Script.t := script "/lib/util.js" "// util".
Definition lib_code : string :=
  "import {f} from 'lib/util.js';" ++ JS.nl ++ "// body".
Definition lib_main : Script.t := script "main.js" lib_code.

(** A server with a script to rewrite, a broken script, a text file and a
    script without imports. *)
Definition legacy_a : Script.t := script "a.js" legacy_code.
Definition home : Server.t :=
  Server.mk "home" [legacy_a; broken_js; notes_txt; helpers_js].

(** A server on which nothing is to be done. *)
Definition settled : Server.t := Server.mk "n00dles" [valid_main; helpers_js].

End Examples.

(** ** The mv command of the terminal *)

(** Terminal/commands/mv.ts.  The command asks the terminal, the server
    and the directory helpers, all of them outside this development, and
    then acts: it writes to the terminal, removes the destination file and
    renames the source file.  Every question comes before the first act, so
    the command is a function from the collaborators' answers to the list
    of its acts, in order. *)
Module Mv.

(** The result of a call that may throw: [inl] holds the thrown value as
    [e + ""] renders it. *)
Definition Throws (A : Type) : Type := (string + A)%type.

Class Collaborators := {
  (** an element of [args], a string or a number *)
  Arg : Type;
  (** [arg + ""] *)
  toString : Arg -> string;
  (** what [terminal.getFile] returns when it is not null *)
  File : Type;
  (** [file instanceof TextFile] *)
  isTextFile : File -> bool;
  isScriptFilename : string -> bool;
  removeLeadingSlash : string -> string;
  getDestinationFilepath : string -> string -> string -> Throws (option string);
  (** [terminal.getFile(player, path)] *)
  getFile : string -> Throws (option File);
  (** [terminal.getFilepath(path)] *)
  getFilepath : string -> Throws string;
  (** [terminal.cwd()] *)
  cwd : Throws string;
  (** [server.isRunning(path)] *)
  isRunning : string -> Throws bool;
  (** [server.removeFile(path).res] *)
  removeFile : string -> Throws bool
}.

Section Command.

Context {world : Collaborators}.

Inductive Act :=
| TerminalError (msg : string)
| TerminalPrint (msg : string)
| RemoveFile (path : string)
| SetFilename (file : File) (path : string)
| SetFn (file : File) (path : string).

(** The catch clause: [terminal.error(e + "")]. *)
Definition caught {A : Type} (call : Throws A) (rest : A -> list Act) : list Act :=
  match call with
  | inl e => [TerminalError e]
  | inr a => rest a
  end.

(** The block both branches share: an existing destination is removed, with
    a warning, before the source is renamed. *)
Definition overwrite (destFile : option File) (destPath : string) (rename : Act)
  : list Act :=
  match destFile with
  | Some _ =>
      RemoveFile destPath ::
      caught (removeFile destPath) (fun res =>
        if negb res then
          [TerminalError "Something went wrong...please contact game dev (probably a bug)"]
        else
          [TerminalPrint "Warning: The destination file was overwritten"; rename])
  | None => [rename]
  end.

Definition mv (args : list Arg) : list Act :=
  match args with
  | [arg0; arg1] =>
      let source := toString arg0 in
      let dest := toString arg1 in
      if negb (isScriptFilename source) && negb (JS.endsWith source ".txt") then
        [TerminalError "'mv' can only be used on scripts and text files (.txt)"]
      else
        caught (getFile source) (fun srcFile =>
        match srcFile with
        | None => [TerminalError ("Source file " ++ source ++ " does not exist")]
        | Some srcFile =>
            caught (getFilepath source) (fun sourcePath =>
            caught cwd (fun cwd =>
            caught (getDestinationFilepath dest source cwd) (fun t_dst =>
            match t_dst with
            | None => [TerminalError "error parsing dst file"]
            | Some t_dst =>
                caught (getFilepath t_dst) (fun destPath =>
                caught (getFile ("/" ++ removeLeadingSlash destPath)) (fun destFile =>
                if isScriptFilename source then
                  if negb (isScriptFilename destPath) then
                    [TerminalError "Source and destination files must have the same type"]
                  else
                    caught (isRunning sourcePath) (fun running =>
                    if running then
                      [TerminalError "Cannot use 'mv' on a script that is running"]
                    else overwrite destFile destPath (SetFilename srcFile destPath))
                else if isTextFile srcFile then
                  if negb (JS.endsWith destPath ".txt") then
                    [TerminalError "Source and destination files must have the same type"]
                  else overwrite destFile destPath (SetFn srcFile destPath)
                else []))
            end)))
        end)
  | _ => [TerminalError "Incorrect number of arguments. Usage: mv [src] [dest]"]
  end.

(** The two acts that rename a file. *)
Definition renames (act : Act) : bool :=
  match act with
  | SetFilename _ _ | SetFn _ _ => true
  | _ => false
  end.

Definition reports_error (act : Act) : bool :=
  match act with
  | TerminalError _ => true
  | _ => false
  end.

End Command.

End Mv.

(** A terminal and a server to try the mv command on: the server holds
    the scripts a.js and b.js, of which b.js is running, and the text file
    notes.txt; arguments are strings, a file is known by its name, a path
    is taken as a file name once its leading slash is removed, and
    removing a file succeeds. *)
Module MvExample.

Definition names : list string := ["a.js"; "b.js"; "notes.txt"].

Definition withoutLeadingSlash (s : string) : string :=
  if JS.startsWith s "/" then JS.substring_from s 1 else s.

Definition lookup (path : string) : option string :=
  find (String.eqb (withoutLeadingSlash path)) names.

#[export] Instance world : Mv.Collaborators := {|
  Mv.Arg := string;
  Mv.toString := fun arg => arg;
  Mv.File := string;
  Mv.isTextFile := fun file => JS.endsWith file ".txt";
  Mv.isScriptFilename := fun f =>
    JS.endsWith f ".js" || JS.endsWith f ".script" || JS.endsWith f ".ns";
  Mv.removeLeadingSlash := withoutLeadingSlash;
  Mv.getDestinationFilepath := fun dest _ _ => inr (Some dest);
  Mv.getFile := fun path => inr (lookup path);
  Mv.getFilepath := fun path => inr (withoutLeadingSlash path);
  Mv.cwd := inr "/";
  Mv.isRunning := fun path => inr (path =? "b.js")%string;
  Mv.removeFile := fun _ => inr true
|}.

End MvExample.

(** ** Facts about strings *)

Section StringFacts.

Lemma append_assoc (a b c : string) : (a ++ b) ++ c = a ++ (b ++ c).
Proof. induction a as [|x a IH]; simpl; [reflexivity | now rewrite IH]. Qed.

Lemma append_nil_r (a : string) : a ++ "" = a.
Proof. induction a as [|x a IH]; simpl; [reflexivity | now rewrite IH]. Qed.

Lemma length_append (a b : string) :
  String.length (a ++ b) = String.length a + String.length b.
Proof. induction a as [|x a IH]; simpl; [reflexivity | now rewrite IH]. Qed.

Lemma take_all (s : string) : forall n, String.length s <= n -> JS.take n s = s.
Proof.
  induction s as [|x s IH]; intros [|n] H; simpl in *; try reflexivity; try lia.
  rewrite IH by lia. reflexivity.
Qed.

Lemma drop_all (s : string) : forall n, String.length s <= n -> JS.drop n s = "".
Proof.
  induction s as [|x s IH]; intros [|n] H; simpl in *; try reflexivity; try lia.
  apply IH. lia.
Qed.

Lemma length_drop (s : string) :
  forall n, String.length (JS.drop n s) = String.length s - n.
Proof.
  induction s as [|x s IH]; intros [|n]; simpl; try reflexivity. apply IH.
Qed.

Lemma take_app (a b : string) (n : nat) :
  JS.take (String.length a + n) (a ++ b) = a ++ JS.take n b.
Proof.
  induction a as [|x a IH]; simpl.
  - reflexivity.
  - now rewrite IH.
Qed.

Lemma drop_app (a b : string) (n : nat) :
  JS.drop (String.length a + n) (a ++ b) = JS.drop n b.
Proof. induction a as [|x a IH]; simpl; [reflexivity | exact IH]. Qed.

Lemma take_0 (s : string) : JS.take 0 s = "".
Proof. destruct s; reflexivity. Qed.

Lemma drop_0 (s : string) : JS.drop 0 s = s.
Proof. destruct s; reflexivity. Qed.

Lemma take_app_exact (a b : string) : JS.take (String.length a) (a ++ b) = a.
Proof.
  rewrite <- (Nat.add_0_r (String.length a)), take_app, take_0.
  apply append_nil_r.
Qed.

Lemma drop_app_exact (a b : string) : JS.drop (String.length a) (a ++ b) = b.
Proof.
  rewrite <- (Nat.add_0_r (String.length a)), drop_app. reflexivity.
Qed.

Lemma take_clamp (s : string) (n : nat) :
  JS.take (Nat.min n (String.length s)) s = JS.take n s.
Proof.
  destruct (Nat.le_gt_cases n (String.length s)) as [H|H].
  - now rewrite Nat.min_l.
  - rewrite Nat.min_r by lia. rewrite !take_all by lia. reflexivity.
Qed.

(** [s.substring(0, n)] is the first [n] characters. *)
Lemma substring_0 (s : string) (n : nat) : JS.substring s 0 n = JS.take n s.
Proof.
  unfold JS.substring. simpl Nat.min at 1.
  rewrite Nat.min_0_l, Nat.max_0_l, Nat.sub_0_r. simpl JS.drop.
  apply take_clamp.
Qed.

(** [s.substring(a, b)] with [a <= b]. *)
Lemma substring_take_drop (s : string) (a b : nat) :
  a <= b -> JS.substring s a b = JS.take (b - a) (JS.drop a s).
Proof.
  intros Hab. unfold JS.substring.
  set (len := String.length s).
  destruct (Nat.le_gt_cases len a) as [Ha|Ha].
  - replace (Nat.min (Nat.min a len) (Nat.min b len)) with len by lia.
    rewrite !drop_all by (subst len; lia).
    destruct (_ - _), (_ - _); reflexivity.
  - replace (Nat.min (Nat.min a len) (Nat.min b len)) with a by lia.
    destruct (Nat.le_gt_cases b len) as [Hb|Hb].
    + replace (Nat.max (Nat.min a len) (Nat.min b len)) with b by lia.
      reflexivity.
    + replace (Nat.max (Nat.min a len) (Nat.min b len)) with len by lia.
      rewrite !take_all; try reflexivity; rewrite length_drop; subst len; lia.
Qed.

(** [s.substring(a)] is the text from offset [a] on. *)
Lemma substring_from_drop (s : string) (a : nat) :
  JS.substring_from s a = JS.drop a s.
Proof.
  unfold JS.substring_from.
  destruct (Nat.le_gt_cases a (String.length s)) as [H|H].
  - rewrite substring_take_drop by exact H.
    apply take_all. rewrite length_drop. lia.
  - unfold JS.substring.
    rewrite Nat.min_id, (Nat.min_r a) by lia.
    rewrite Nat.min_id, Nat.max_id, Nat.sub_diag, take_0.
    symmetry. apply drop_all. lia.
Qed.

End StringFacts.

(** ** The loop body *)

Section ConvertNode.

Context {acorn : Acorn} {helpers : DirectoryHelpers}.

Lemma filter_first_match (p : Script.t -> bool) (scripts : list Script.t)
    (known : Script.t) :
  first_match p scripts known -> exists rest, filter p scripts = known :: rest.
Proof.
  intros (before & after & -> & Hp & Hbefore).
  induction Hbefore as [|s before Hs _ IH]; simpl.
  - rewrite Hp. eauto.
  - rewrite Hs. exact IH.
Qed.

Lemma filter_no_match (p : Script.t -> bool) (scripts : list Script.t) :
  Forall (fun s => p s = false) scripts -> filter p scripts = [].
Proof.
  induction 1 as [|s scripts Hs _ IH]; simpl; [reflexivity|].
  now rewrite Hs.
Qed.

(** The loop body acts by the branch it takes. *)
Lemma convert_node_resolve (scripts : list Script.t) (dir : Directories)
    (code : string) (node : ImportNode) :
  convert_node scripts dir code node =
  apply_outcome code node (resolve scripts dir node).
Proof.
  unfold convert_node, resolve.
  destruct (matchingScripts scripts node) as [|m ms].
  - destruct (directoryFilename dir node) as [path|]; [|reflexivity].
    destruct (rootMatchingScripts scripts path); reflexivity.
  - simpl. destruct (JS.loose_eq _ _); reflexivity.
Qed.

Lemma loose_eq_true (a : option string) (b : string) :
  JS.loose_eq a b = true <-> a = Some b.
Proof.
  destruct a as [a|]; simpl.
  - rewrite String.eqb_eq. split; congruence.
  - split; discriminate.
Qed.

Lemma directory_path_filename (dir : Directories) (node : ImportNode) (path : string) :
  directory_path dir node path -> directoryFilename dir node = Some path.
Proof.
  unfold directory_path, directoryFilename.
  intros [[-> Hne]|[[->| ->] ->]]; simpl; try reflexivity.
  destruct path; [contradiction|reflexivity].
Qed.

(** Where the legacy-root strategy finds a file, the outcome is decided by
    that file alone. *)
Lemma resolve_legacy_root (scripts : list Script.t) (dir : Directories)
    (node : ImportNode) (known : Script.t) :
  legacy_root_match scripts node known ->
  resolve scripts dir node =
  if JS.loose_eq (evaluateFilePath ("/" ++ Script.filename known) None) (filename node)
  then AlreadyValid
  else RootRewrite ("/" ++ Script.filename known).
Proof.
  intros H. apply filter_first_match in H as [rest H].
  unfold resolve, matchingScripts. fold (legacy_specifier node).
  rewrite H. reflexivity.
Qed.

Lemma resolve_directory (scripts : list Script.t) (dir : Directories)
    (node : ImportNode) (path : string) (known : Script.t) :
  no_legacy_root_match scripts node ->
  directory_path dir node path ->
  directory_match scripts path known ->
  resolve scripts dir node = DirectoryRewrite (Script.filename known).
Proof.
  intros Hnone Hpath Hknown.
  apply filter_no_match in Hnone. apply filter_first_match in Hknown as [rest Hknown].
  unfold resolve, matchingScripts. fold (legacy_specifier node).
  rewrite Hnone, (directory_path_filename _ _ _ Hpath).
  unfold rootMatchingScripts. rewrite Hknown. reflexivity.
Qed.

(** The effect of the two assignments of a rewriting branch on a text in
    which the statement and its specifier lie where the node says. *)
Lemma rewrite_import_located (node : ImportNode)
    (pre head old tail post specifier : string) :
  located node pre head old tail ->
  rewrite_import (pre ++ head ++ old ++ tail ++ post) node specifier =
  pre ++ original_line_block (head ++ old ++ tail) ++
  head ++ specifier ++ tail ++ post.
Proof.
  intros (HsS & Hs & He & HsE). unfold rewrite_import.
  rewrite !substring_0, !substring_from_drop, substring_take_drop by lia.
  rewrite HsE, He, Hs, HsS.
  replace (String.length pre + String.length head + String.length old +
           String.length tail - String.length pre)
    with (String.length head + (String.length old + (String.length tail + 0)))
    by lia.
  replace (String.length pre + String.length head + String.length old)
    with (String.length pre + (String.length head + (String.length old + 0)))
    by lia.
  replace (String.length pre + String.length head)
    with (String.length pre + (String.length head + 0)) by lia.
  rewrite drop_app_exact, !take_app, !drop_app, !take_0, !drop_0, !append_nil_r.
  rewrite append_assoc, take_app_exact, drop_app_exact.
  reflexivity.
Qed.

End ConvertNode.

(** ** Resolution and rewriting of one import *)

Section Resolution.

Context {acorn : Acorn} {helpers : DirectoryHelpers}.

(** One iteration of the loop.  When an import is rewritten, by the
    legacy-root or by the directory-relative strategy, the text of the
    specifier range of the text at hand is replaced
    by the new specifier, and a comment block is inserted right in front of
    the statement: after a line break, the fixed opening banner line, the
    statement as it read before the edit wrapped as a documentation comment,
    and the fixed closing banner line.  The text before the statement and
    after it is kept. *)
Lemma rewritten_import_block (scripts : list Script.t) (dir : Directories)
    (node : ImportNode) (pre head old tail post specifier : string) :
  located node pre head old tail ->
  resolve scripts dir node = RootRewrite specifier \/
  resolve scripts dir node = DirectoryRewrite specifier ->
  convert_node scripts dir (pre ++ head ++ old ++ tail ++ post) node =
  pre ++ JS.nl ++
  "// =============================== original line ===============================" ++ JS.nl ++
  "/**" ++ JS.nl ++
  " * " ++ (head ++ old ++ tail) ++ JS.nl ++
  " */" ++ JS.nl ++
  "// =============================================================================" ++ JS.nl ++
  head ++ specifier ++ tail ++ post.
Proof.
  intros Hloc Hres. rewrite convert_node_resolve.
  assert (apply_outcome (pre ++ head ++ old ++ tail ++ post) node
            (resolve scripts dir node) =
          rewrite_import (pre ++ head ++ old ++ tail ++ post) node specifier) as ->
    by (destruct Hres as [-> | ->]; reflexivity).
  rewrite (rewrite_import_located _ _ _ _ _ _ _ Hloc).
  unfold original_line_block. rewrite !append_assoc. reflexivity.
Qed.

(** C3.  When the legacy-root strategy finds a known file and the
    root-relative specifier computed from it equals the specifier as
    written, the loop body leaves the text as it is: no replacement, no
    block, no warning. *)
Theorem already_valid_import_untouched (scripts : list Script.t)
    (dir : Directories) (code : string) (node : ImportNode) (known : Script.t) :
  legacy_root_match scripts node known ->
  evaluateFilePath ("/" ++ Script.filename known) None = Some (filename node) ->
  convert_node scripts dir code node = code.
Proof.
  intros Hmatch Hsame.
  rewrite convert_node_resolve, (resolve_legacy_root _ _ _ _ Hmatch).
  apply loose_eq_true in Hsame. rewrite Hsame. reflexivity.
Qed.

(** One iteration of the loop.  When the legacy-root strategy finds
    nothing for an import of [script], the specifier is normalized against the parent directories
    of [script], as written first and with ".js" appended second; if a
    known file's name equals the normalized path, the specifier is
    rewritten to that file's name as it stands, with nothing put in front
    of it. *)
Lemma directory_relative_rewrite (script : Script.t) (scripts : list Script.t)
    (code : string) (node : ImportNode) (path : string) (known : Script.t) :
  no_legacy_root_match scripts node ->
  directory_path (getAllParentDirectories (Script.filename script)) node path ->
  directory_match scripts path known ->
  convert_node scripts (getAllParentDirectories (Script.filename script)) code node =
  rewrite_import code node (Script.filename known).
Proof.
  intros Hnone Hpath Hknown.
  rewrite convert_node_resolve, (resolve_directory _ _ _ _ _ Hnone Hpath Hknown).
  reflexivity.
Qed.

End Resolution.

Section Priority.

Context {acorn : Acorn}.

Lemma matchingScripts_helpers (h h' : DirectoryHelpers) (scripts : list Script.t)
    (node : ImportNode) :
  (forall a b, @areImportsEquals h' a b = @areImportsEquals h a b) ->
  @matchingScripts h' scripts node = @matchingScripts h scripts node.
Proof.
  intros Heq. unfold matchingScripts. apply filter_ext. intros s. apply Heq.
Qed.

(** One iteration of the loop.  When the legacy-root strategy finds a
    known file, the directory-relative strategy plays no part: the result is the same
    whatever the importer's directories are and whatever the helpers of the
    directory-relative strategy compute.  The specifier is rewritten to "/"
    followed by the file's name, unless the root-relative path computed
    from that name equals the specifier as written, in which case the text
    stays as it is. *)
Lemma legacy_root_strategy_first (helpers : DirectoryHelpers)
    (scripts : list Script.t) (dir : Directories) (code : string)
    (node : ImportNode) (known : Script.t) :
  legacy_root_match scripts node known ->
  convert_node scripts dir code node =
    (if JS.loose_eq (evaluateFilePath ("/" ++ Script.filename known) None)
                    (filename node)
     then code
     else rewrite_import code node ("/" ++ Script.filename known)) /\
  forall (helpers' : DirectoryHelpers) (dir' : @Directories helpers'),
    (forall a b, @areImportsEquals helpers' a b = @areImportsEquals helpers a b) ->
    (forall p, @evaluateFilePath helpers' p None = @evaluateFilePath helpers p None) ->
    @convert_node helpers' scripts dir' code node =
    @convert_node helpers scripts dir code node.
Proof.
  intros Hmatch.
  assert (convert_node scripts dir code node =
          if JS.loose_eq (evaluateFilePath ("/" ++ Script.filename known) None)
                         (filename node)
          then code
          else rewrite_import code node ("/" ++ Script.filename known)) as Hroot.
  { rewrite convert_node_resolve, (resolve_legacy_root _ _ _ _ Hmatch).
    destruct (JS.loose_eq _ _); reflexivity. }
  split; [exact Hroot|].
  intros helpers' dir' Himports Hevaluate. rewrite Hroot.
  apply filter_first_match in Hmatch as [rest Hmatch].
  unfold convert_node. rewrite (matchingScripts_helpers helpers helpers') by exact Himports.
  unfold matchingScripts. fold (legacy_specifier node). rewrite Hmatch.
  rewrite Hevaluate. destruct (JS.loose_eq _ _); reflexivity.
Qed.

End Priority.

(** ** The known files matter by their names only *)

Section KnownFiles.

Context {acorn : Acorn} {helpers : DirectoryHelpers}.

Lemma filter_filenames (p : string -> bool) (l1 : list Script.t) :
  forall l2, map Script.filename l1 = map Script.filename l2 ->
  map Script.filename (filter (fun s => p (Script.filename s)) l1) =
  map Script.filename (filter (fun s => p (Script.filename s)) l2).
Proof.
  induction l1 as [|s1 l1 IH]; intros [|s2 l2] H; simpl in *; try discriminate.
  - reflexivity.
  - injection H as Hs Hl. rewrite Hs.
    destruct (p (Script.filename s2)); simpl; [rewrite Hs; f_equal|]; now apply IH.
Qed.

Lemma resolve_filenames (l1 l2 : list Script.t) (dir : Directories)
    (node : ImportNode) :
  map Script.filename l1 = map Script.filename l2 ->
  resolve l1 dir node = resolve l2 dir node.
Proof.
  intros H. unfold resolve, matchingScripts, rootMatchingScripts.
  pose proof (filter_filenames
                (fun f => areImportsEquals f (legacy_specifier node)) l1 l2 H) as Hm.
  unfold legacy_specifier in Hm.
  destruct (filter _ l1) as [|m1 r1], (filter _ l2) as [|m2 r2];
    simpl in Hm; try discriminate.
  - destruct (directoryFilename dir node) as [path|]; [|reflexivity].
    pose proof (filter_filenames (fun f => areFilesEqual f path) l1 l2 H) as Hd.
    destruct (filter _ l1) as [|d1 q1], (filter _ l2) as [|d2 q2];
      simpl in Hd; try discriminate; [reflexivity|].
    injection Hd as Hd _. now rewrite Hd.
  - injection Hm as Hm _. now rewrite Hm.
Qed.

Lemma convert_filenames (script : Script.t) (l1 l2 : list Script.t) :
  map Script.filename l1 = map Script.filename l2 ->
  convert script l1 = convert script l2.
Proof.
  intros H. unfold convert, convert_nodes.
  destruct (parse (Script.code script)) as [err|ast]; [reflexivity|].
  f_equal. generalize (Script.code script).
  induction (sort_nodes (map onImportDeclaration ast)) as [|node nodes IH];
    intros code; simpl; [reflexivity|].
  rewrite !convert_node_resolve, (resolve_filenames l1 l2 _ _ H). apply IH.
Qed.

Lemma migrate_filenames (script : Script.t) (l1 l2 : list Script.t) :
  map Script.filename l1 = map Script.filename l2 ->
  migrate l1 script = migrate l2 script.
Proof.
  intros H. unfold migrate. now rewrite (convert_filenames script l1 l2 H).
Qed.

End KnownFiles.

(** ** The batch driver *)

Section Batch.

Context {acorn : Acorn} {helpers : DirectoryHelpers}.

Lemma concat_cons (x : string) (l : list string) :
  String.concat "" (x :: l) = x ++ String.concat "" l.
Proof.
  destruct l; simpl; [now rewrite append_nil_r | reflexivity].
Qed.

Lemma concat_app (l1 l2 : list string) :
  String.concat "" (l1 ++ l2) = String.concat "" l1 ++ String.concat "" l2.
Proof.
  induction l1 as [|x l1 IH]; [reflexivity|].
  rewrite <- app_comm_cons, !concat_cons, IH, append_assoc. reflexivity.
Qed.

Lemma scripts_report_cons (host : string) (all : list Script.t)
    (script : Script.t) (todo : list Script.t) :
  scripts_report host all (script :: todo) =
  report_entry host all script ++ scripts_report host all todo.
Proof. unfold scripts_report. simpl map. apply concat_cons. Qed.

Lemma scripts_report_app (host : string) (all todo1 todo2 : list Script.t) :
  scripts_report host all (todo1 ++ todo2) =
  scripts_report host all todo1 ++ scripts_report host all todo2.
Proof. unfold scripts_report. rewrite map_app. apply concat_app. Qed.

Lemma servers_report_cons (server : Server.t) (servers : list Server.t) :
  servers_report (server :: servers) = server_report server ++ servers_report servers.
Proof. unfold servers_report. simpl map. apply concat_cons. Qed.

Lemma servers_report_app (servers1 servers2 : list Server.t) :
  servers_report (servers1 ++ servers2) =
  servers_report servers1 ++ servers_report servers2.
Proof. unfold servers_report. rewrite map_app. apply concat_app. Qed.

(** The inner loop visits the scripts one by one: what it does to a script
    depends on the other scripts by their names only, which it never
    changes. *)
Lemma scripts_loop_spec (host : string) (all : list Script.t) :
  forall todo done backups txt,
    map Script.filename (done ++ todo) = map Script.filename all ->
    scripts_loop host done todo backups txt =
    ((done ++ map (migrated_script all) todo)%list,
     (backups ++ flat_map (backup_scripts all) todo)%list,
     txt ++ scripts_report host all todo).
Proof.
  induction todo as [|script rest IH]; intros done backups txt Hall.
  - simpl. unfold scripts_report. simpl. now rewrite !app_nil_r, append_nil_r.
  - rewrite scripts_report_cons. simpl scripts_loop. simpl map. simpl flat_map.
    unfold migrated_script, backup_scripts, report_entry, migrate.
    rewrite (convert_filenames script _ _ Hall).
    destruct (isMigrated script).
    + destruct (convert script all) as [err|code].
      * rewrite IH by (rewrite <- app_assoc; exact Hall).
        rewrite <- !app_assoc, append_assoc. reflexivity.
      * destruct (Script.code script =? code)%string.
        -- rewrite IH by (rewrite <- app_assoc; exact Hall).
           rewrite <- !app_assoc. reflexivity.
        -- rewrite IH
             by (rewrite <- app_assoc; rewrite <- Hall, !map_app; reflexivity).
           rewrite <- !app_assoc, append_assoc. reflexivity.
    + rewrite IH by (rewrite <- app_assoc; exact Hall).
      rewrite <- !app_assoc. reflexivity.
Qed.

Lemma servers_loop_spec (servers : list Server.t) :
  forall txt,
    servers_loop servers txt =
    (map migrated_server servers, txt ++ servers_report servers).
Proof.
  induction servers as [|server rest IH]; intros txt; simpl.
  - unfold servers_report. simpl. now rewrite append_nil_r.
  - rewrite (scripts_loop_spec _ (Server.scripts server)) by reflexivity.
    rewrite IH, servers_report_cons, append_assoc. reflexivity.
Qed.

(** [rewriteImports] as a map over the servers and their scripts. *)
Lemma rewriteImports_spec (servers : list Server.t) :
  rewriteImports servers =
  (map migrated_server servers, written (servers_report servers)).
Proof.
  unfold rewriteImports. rewrite servers_loop_spec. reflexivity.
Qed.

End Batch.

Section BatchClaims.

Context {acorn : Acorn} {helpers : DirectoryHelpers}.

Lemma append_eq_empty (a b : string) : a ++ b = "" -> a = "" /\ b = "".
Proof. destruct a; simpl; [auto | discriminate]. Qed.

Lemma written_nonempty (txt : string) :
  txt <> "" -> written txt = Some ("IMPORT_DETECTED_CHANGES.txt", txt).
Proof.
  intros H. unfold written. apply String.eqb_neq in H. now rewrite H.
Qed.

Lemma migrated_server_split (server : Server.t) (before after : list Script.t)
    (script : Script.t) :
  Server.scripts server = (before ++ script :: after)%list ->
  (forall code, migrate (Server.scripts server) script <> Changed code) ->
  migrated_server server =
  Server.mk (Server.hostname server)
    (map (migrated_script (Server.scripts server)) before ++
     script :: map (migrated_script (Server.scripts server)) after ++
     flat_map (backup_scripts (Server.scripts server)) (before ++ after))%list.
Proof.
  intros Hscripts Hsame. unfold migrated_server. f_equal.
  set (all := Server.scripts server) in *.
  rewrite Hscripts at 2 4.
  rewrite map_app, !flat_map_app. simpl map. simpl flat_map.
  unfold migrated_script at 2. unfold backup_scripts at 2.
  destruct (migrate all script) as [|code|err];
    [| exfalso; apply (Hsame code); reflexivity |];
    simpl; rewrite <- !app_assoc; reflexivity.
Qed.

(** C8.  A parse error in one script is caught: the report gets an entry
    for that script which carries the error message, the script stays as
    it is, every other script of every server is processed as it would be
    anyway, and the batch runs to its end. *)
Theorem parse_failure_isolated (servers_before servers_after : list Server.t)
    (server : Server.t) (before after : list Script.t) (bad : Script.t)
    (err : string) :
  Server.scripts server = (before ++ bad :: after)%list ->
  isMigrated bad = true ->
  parse (Script.code bad) = inl err ->
  rewriteImports (servers_before ++ server :: servers_after) =
  ((map migrated_server servers_before ++
    Server.mk (Server.hostname server)
      (map (migrated_script (Server.scripts server)) before ++
       bad :: map (migrated_script (Server.scripts server)) after ++
       flat_map (backup_scripts (Server.scripts server)) (before ++ after)) ::
    map migrated_server servers_after)%list,
   Some ("IMPORT_DETECTED_CHANGES.txt",
         servers_report servers_before ++
         scripts_report (Server.hostname server) (Server.scripts server) before ++
         ("// Failed to convert " ++ Script.filename bad ++ " on " ++
          Server.hostname server ++
          ", reason: Error: Error processing script for migration, parse error: " ++
          err ++ JS.nl) ++
         scripts_report (Server.hostname server) (Server.scripts server) after ++
         servers_report servers_after)).
Proof.
  intros Hscripts Hjs Hparse.
  assert (migrate (Server.scripts server) bad =
          Failed ("Error processing script for migration, parse error: " ++ err))
    as Hbad by (unfold migrate, convert; now rewrite Hjs, Hparse).
  rewrite rewriteImports_spec, map_app. simpl map.
  rewrite (migrated_server_split server before after bad Hscripts)
    by (intros code; rewrite Hbad; discriminate).
  f_equal.
  rewrite servers_report_app, servers_report_cons.
  unfold server_report. rewrite Hscripts at 2.
  rewrite scripts_report_app, scripts_report_cons.
  unfold report_entry at 1. rewrite Hbad. unfold failed_entry.
  rewrite !append_assoc. apply written_nonempty.
  intros Hempty.
  apply append_eq_empty in Hempty as [_ Hempty].
  apply append_eq_empty in Hempty as [_ Hempty].
  discriminate Hempty.
Qed.

(** C10.  A script whose name ends neither in ".js" nor in ".ns" is not
    converted: it stays in its server's list with its code as it was, and
    the report has no entry for it. *)
Theorem other_files_left_alone (servers_before servers_after : list Server.t)
    (server : Server.t) (before after : list Script.t) (skipped : Script.t) :
  Server.scripts server = (before ++ skipped :: after)%list ->
  JS.endsWith (Script.filename skipped) ".js" = false ->
  JS.endsWith (Script.filename skipped) ".ns" = false ->
  rewriteImports (servers_before ++ server :: servers_after) =
  ((map migrated_server servers_before ++
    Server.mk (Server.hostname server)
      (map (migrated_script (Server.scripts server)) before ++
       skipped :: map (migrated_script (Server.scripts server)) after ++
       flat_map (backup_scripts (Server.scripts server)) (before ++ after)) ::
    map migrated_server servers_after)%list,
   written
     (servers_report servers_before ++
      scripts_report (Server.hostname server) (Server.scripts server) before ++
      scripts_report (Server.hostname server) (Server.scripts server) after ++
      servers_report servers_after)).
Proof.
  intros Hscripts Hjs Hns.
  assert (migrate (Server.scripts server) skipped = NoChange) as Hskipped
    by (unfold migrate, isMigrated; now rewrite Hjs, Hns).
  rewrite rewriteImports_spec, map_app. simpl map.
  rewrite (migrated_server_split server before after skipped Hscripts)
    by (intros code; rewrite Hskipped; discriminate).
  f_equal.
  rewrite servers_report_app, servers_report_cons.
  unfold server_report. rewrite Hscripts at 2.
  rewrite scripts_report_app, scripts_report_cons.
  unfold report_entry at 1. rewrite Hskipped.
  rewrite !append_assoc. reflexivity.
Qed.

(** C9, amended.  The report is the concatenation, server by server and
    script by script, of one entry per script, and the entry of a script is
    empty when the script is not a .js or .ns file or its text is
    unchanged, the line "// Changed import statements in ..." when its text
    changed, and the line "// Failed to convert ..., reason: ..." when it
    does not parse; the report is written only when it is not empty. *)
Theorem report_lists_changes_and_failures (servers : list Server.t) :
  snd (rewriteImports servers) =
  written
    (String.concat ""
       (map (fun server =>
               String.concat ""
                 (map (report_entry (Server.hostname server) (Server.scripts server))
                      (Server.scripts server)))
            servers)) /\
  forall (host : string) (scripts : list Script.t) (script : Script.t),
    (isMigrated script = false /\ report_entry host scripts script = "") \/
    (isMigrated script = true /\
     convert script scripts = inr (Script.code script) /\
     report_entry host scripts script = "") \/
    (isMigrated script = true /\
     exists code,
       convert script scripts = inr code /\ code <> Script.code script /\
       report_entry host scripts script =
       "// Changed import statements in " ++ Script.filename script ++ " on " ++ host) \/
    (isMigrated script = true /\
     exists err,
       parse (Script.code script) = inl err /\
       report_entry host scripts script =
       "// Failed to convert " ++ Script.filename script ++ " on " ++ host ++
       ", reason: Error: Error processing script for migration, parse error: " ++
       err ++ JS.nl).
Proof.
  split.
  - rewrite rewriteImports_spec. reflexivity.
  - intros host scripts script. unfold report_entry, migrate, convert.
    destruct (isMigrated script); [right | left; split; reflexivity].
    destruct (parse (Script.code script)) as [err|ast].
    + right. right. split; [reflexivity|]. exists err. split; [reflexivity|].
      unfold failed_entry. rewrite !append_assoc. reflexivity.
    + set (code := convert_nodes _ _ _ _).
      destruct (Script.code script =? code)%string eqn:Hcode.
      * left. apply String.eqb_eq in Hcode.
        repeat split. now rewrite <- Hcode.
      * right. left. split; [reflexivity|]. exists code.
        apply String.eqb_neq in Hcode.
        repeat split. congruence.
Qed.

End BatchClaims.

(** ** Converting a second time *)

Section Again.

Context {acorn : Acorn} {helpers : DirectoryHelpers}.

Lemma sort_insert_In (a x : ImportNode) (l : list ImportNode) :
  In x (sort_insert a l) -> x = a \/ In x l.
Proof.
  induction l as [|b l IH]; simpl.
  - intros [<-|[]]. now left.
  - destruct (start b <=? start a)%nat; simpl.
    + intros [<-|H]; [now left | now right].
    + intros [<-|H]; [right; now left|].
      destruct (IH H) as [->|H']; [now left | right; now right].
Qed.

Lemma sort_nodes_In (x : ImportNode) (l : list ImportNode) :
  In x (sort_nodes l) -> In x l.
Proof.
  induction l as [|a l IH]; simpl; [tauto|].
  intros H. apply sort_insert_In in H as [->|H]; [now left | right; now apply IH].
Qed.

(** A script all of whose imports are already valid is returned as it is. *)
Lemma convert_nodes_already_valid (scripts : list Script.t) (dir : Directories)
    (code : string) (nodes : list ImportNode) :
  Forall (already_valid scripts) nodes ->
  convert_nodes scripts dir code nodes = code.
Proof.
  intros Hvalid. unfold convert_nodes.
  assert (Forall (already_valid scripts) (sort_nodes nodes)) as Hsorted.
  { apply Forall_forall. intros x Hx. apply sort_nodes_In in Hx.
    revert x Hx. now apply Forall_forall. }
  induction Hsorted as [|node rest (known & Hmatch & Hsame) _ IH]; simpl.
  - reflexivity.
  - rewrite convert_node_resolve, (resolve_legacy_root _ _ _ _ Hmatch).
    apply loose_eq_true in Hsame. rewrite Hsame. exact IH.
Qed.

End Again.

(** ** The whole loop on a text cut at its import statements *)

Section LayoutLoop.

Context {acorn : Acorn} {helpers : DirectoryHelpers}.

Lemma resolve_outcome (scripts : list Script.t) (dir : Directories)
    (node : ImportNode) :
  resolve scripts dir node = outcome scripts dir (filename node).
Proof. reflexivity. Qed.

Lemma statement_node_located (before : string) (st : Statement) :
  located (statement_node (String.length before) st)
          (before ++ gap st) (head st) (specifier st) (tail st).
Proof.
  unfold located, statement_node. simpl. rewrite length_append. auto.
Qed.

Lemma statement_node_end (before : string) (st : Statement) :
  statementEnd (statement_node (String.length before) st) =
  String.length (before ++ gap st ++ statement_text st).
Proof.
  unfold statement_node, statement_text. simpl. rewrite !length_append. lia.
Qed.

(** The statements that follow start further right. *)
Lemma layout_nodes_start (sts : list Statement) :
  Forall (fun st => head st <> "") sts ->
  forall offset,
    Forall (fun node => offset < start node) (layout_nodes offset sts).
Proof.
  induction 1 as [|st sts Hhead _ IH]; intros offset; simpl; constructor.
  - simpl. destruct (head st); [contradiction|]. simpl. lia.
  - eapply Forall_impl; [|apply IH]. simpl. intros node. lia.
Qed.

Lemma sort_insert_last (a : ImportNode) (l : list ImportNode) :
  Forall (fun b => start a < start b) l -> sort_insert a l = (l ++ [a])%list.
Proof.
  induction 1 as [|b l Hb _ IH]; simpl; [reflexivity|].
  destruct (Nat.leb_spec (start b) (start a)); [lia|]. now rewrite IH.
Qed.

(** On nodes in source order the sort is a reversal: the loop runs from
    the last statement to the first. *)
Lemma sort_layout_nodes (sts : list Statement) :
  Forall (fun st => head st <> "") sts ->
  forall offset, sort_nodes (layout_nodes offset sts) = rev (layout_nodes offset sts).
Proof.
  induction 1 as [|st sts Hhead Hsts IH]; intros offset; simpl; [reflexivity|].
  rewrite IH. apply sort_insert_last.
  apply Forall_forall. intros b Hb. apply in_rev in Hb.
  pose proof (layout_nodes_start sts Hsts
                (statementEnd (statement_node offset st))) as Hstart.
  rewrite Forall_forall in Hstart. specialize (Hstart b Hb).
  simpl in *. lia.
Qed.

Lemma place_comment_located (node : ImportNode) (pre post : string) :
  statementStart node = String.length pre ->
  place_comment (pre ++ post) node = pre ++ JS.nl ++ comment ++ JS.nl ++ pre.
Proof.
  intros H. unfold place_comment. rewrite substring_0, H, take_app_exact.
  reflexivity.
Qed.

(** The loop from the last statement to the first, on the text
    [before ++ layout_text sts rest]. *)
Lemma convert_layout_from (scripts : list Script.t) (dir : Directories)
    (rest : string) (sts : list Statement) :
  forall before,
    fold_right (fun node code => convert_node scripts dir code node)
               (before ++ layout_text sts rest)
               (layout_nodes (String.length before) sts) =
    before ++ converted_text (outcome scripts dir) before sts rest.
Proof.
  induction sts as [|st sts IH]; intros before; [reflexivity|].
  cbn [layout_nodes fold_right layout_text].
  rewrite statement_node_end.
  replace (before ++ gap st ++ statement_text st ++ layout_text sts rest)
    with ((before ++ gap st ++ statement_text st) ++ layout_text sts rest)
    by (rewrite !append_assoc; reflexivity).
  rewrite IH. cbn [converted_text].
  set (after := converted_text _ (before ++ gap st ++ statement_text st) sts rest).
  rewrite convert_node_resolve, resolve_outcome.
  change (filename (statement_node (String.length before) st)) with (value st).
  pose proof (statement_node_located before st) as Hloc.
  replace ((before ++ gap st ++ statement_text st) ++ after)
    with ((before ++ gap st) ++ head st ++ specifier st ++ tail st ++ after)
    by (unfold statement_text; rewrite !append_assoc; reflexivity).
  destruct (outcome scripts dir (value st)) as [new|new| |]; cbn [apply_outcome].
  - rewrite (rewrite_import_located _ _ _ _ _ _ _ Hloc).
    rewrite !append_assoc. reflexivity.
  - rewrite (rewrite_import_located _ _ _ _ _ _ _ Hloc).
    rewrite !append_assoc. reflexivity.
  - unfold statement_text. rewrite !append_assoc. reflexivity.
  - rewrite place_comment_located by apply Hloc.
    rewrite !append_assoc. reflexivity.
Qed.

(** [convert] on a script whose import statements the parser finds as the
    layout says: every rewritten statement gets its block and its new
    specifier, every valid one stays, and at the first import that could
    not be resolved the text ends with the warning and a copy of the
    original text in front of that import. *)
Lemma convert_layout (script : Script.t) (scripts : list Script.t)
    (sts : list Statement) (rest : string) :
  Script.code script = layout_text sts rest ->
  Forall (fun st => head st <> "") sts ->
  locates sts rest ->
  convert script scripts =
  inr (converted_text
         (outcome scripts (getAllParentDirectories (Script.filename script)))
         "" sts rest).
Proof.
  intros Hcode Hheads (ast & Hparse & Hnodes).
  unfold convert, convert_nodes. rewrite Hcode, Hparse, Hnodes. f_equal.
  rewrite (sort_layout_nodes sts Hheads).
  set (dir := getAllParentDirectories (Script.filename script)).
  pose proof (fold_left_rev_right
                (fun node code => convert_node scripts dir code node)
                (rev (layout_nodes 0 sts)) (layout_text sts rest)) as Hfold.
  rewrite rev_involutive in Hfold.
  etransitivity; [symmetry; exact Hfold|].
  apply (convert_layout_from scripts dir rest sts "").
Qed.

Lemma layout_text_app (sts1 sts2 : list Statement) (rest : string) :
  layout_text (sts1 ++ sts2) rest = layout_text sts1 "" ++ layout_text sts2 rest.
Proof.
  induction sts1 as [|st sts1 IH]; simpl; [reflexivity|].
  rewrite IH, !append_assoc. reflexivity.
Qed.

Lemma layout_nodes_app (sts1 sts2 : list Statement) :
  forall before,
    layout_nodes (String.length before) (sts1 ++ sts2) =
    (layout_nodes (String.length before) sts1 ++
     layout_nodes (String.length (before ++ layout_text sts1 "")) sts2)%list.
Proof.
  induction sts1 as [|st sts1 IH]; intros before; cbn [app layout_nodes layout_text].
  - now rewrite append_nil_r.
  - f_equal. rewrite !statement_node_end, IH, !append_assoc. reflexivity.
Qed.

Lemma layout_nodes_length (sts : list Statement) :
  forall offset, List.length (layout_nodes offset sts) = List.length sts.
Proof. induction sts as [|st sts IH]; intros offset; simpl; [|rewrite IH]; reflexivity. Qed.

(** The substitution of the specification at a statement of the text. *)
Lemma spec_substitution_located (o : string -> Outcome) (before after : string)
    (st : Statement) :
  spec_substitution (before ++ layout_text [st] after)
    (statement_node (String.length before) st) (o (value st)) =
  before ++ layout_text [substituted o st] after.
Proof.
  pose proof (statement_node_located before st) as Hloc.
  cbn [layout_text]. unfold substituted.
  replace (before ++ gap st ++ statement_text st ++ after)
    with ((before ++ gap st) ++ head st ++ specifier st ++ tail st ++ after)
    by (unfold statement_text; rewrite !append_assoc; reflexivity).
  destruct (o (value st)) as [new|new| |]; cbn [spec_substitution];
    unfold statement_text; cbn [gap head specifier tail].
  - rewrite (rewrite_import_located _ _ _ _ _ _ _ Hloc).
    rewrite !append_assoc. reflexivity.
  - rewrite (rewrite_import_located _ _ _ _ _ _ _ Hloc).
    rewrite !append_assoc. reflexivity.
  - rewrite !append_assoc. reflexivity.
  - rewrite substring_0, substring_from_drop.
    destruct Hloc as (-> & _). rewrite take_app_exact, drop_app_exact.
    rewrite !append_assoc. reflexivity.
Qed.

(** One substitution at a time on a freshly parsed tree: once the
    statements [done] are substituted, the rounds left substitute the
    statements [todo]. *)
Lemma spec_reparse_rounds_layout (scripts : list Script.t) (dir : Directories)
    (sts : list Statement) (rest : string) :
  (forall done todo,
      sts = (done ++ todo)%list ->
      locates (map (substituted (outcome scripts dir)) done ++ todo) rest) ->
  forall todo done,
    sts = (done ++ todo)%list ->
    spec_reparse_rounds (List.length todo) (List.length done) scripts dir
      (layout_text (map (substituted (outcome scripts dir)) done ++ todo) rest) =
    layout_text (map (substituted (outcome scripts dir)) sts) rest.
Proof.
  intros Hlocates. set (o := outcome scripts dir) in *.
  induction todo as [|st todo IH]; intros done Hsts.
  - simpl. rewrite Hsts, !app_nil_r. reflexivity.
  - destruct (Hlocates done (st :: todo) Hsts) as (ast & Hparse & Hnodes).
    cbn [List.length spec_reparse_rounds]. rewrite Hparse, Hnodes.
    pose proof (layout_nodes_app (map (substituted o) done) (st :: todo) "") as Happ.
    cbn [String.length append] in Happ. rewrite Happ.
    rewrite nth_error_app2 by (rewrite layout_nodes_length, length_map; lia).
    rewrite layout_nodes_length, length_map, Nat.sub_diag.
    cbn [layout_nodes nth_error].
    set (before := layout_text (map (substituted o) done) "").
    rewrite resolve_outcome.
    change (filename (statement_node (String.length before) st)) with (value st).
    rewrite layout_text_app. fold before.
    change (layout_text (st :: todo) rest)
      with (layout_text [st] (layout_text todo rest)) at 1.
    fold o. rewrite spec_substitution_located.
    specialize (IH (done ++ [st])%list).
    rewrite length_app, Nat.add_1_r, map_app, <- app_assoc in IH.
    cbn [map app] in IH.
    rewrite <- (IH Hsts). f_equal.
    rewrite !layout_text_app. fold before. cbn [layout_text append].
    rewrite !append_assoc. reflexivity.
Qed.

(** Without an import that could not be resolved, what [convert] makes of
    the text is the text of the substituted statements. *)
Lemma converted_text_substituted (o : string -> Outcome) (rest : string)
    (sts : list Statement) :
  Forall (fun st => o (value st) <> Unresolved) sts ->
  forall before,
    converted_text o before sts rest = layout_text (map (substituted o) sts) rest.
Proof.
  induction 1 as [|st sts Hst _ IH]; intros before; [reflexivity|].
  cbn [converted_text map layout_text]. rewrite IH. unfold substituted.
  destruct (o (value st)) as [new|new| |]; try contradiction;
    unfold statement_text; cbn [gap head specifier tail];
    rewrite ?append_assoc; reflexivity.
Qed.

(** Range correctness, where line 104 is not reached: if the parser finds
    the statements at every stage of the substitution and every import is
    rewritten or already valid, the loop over the nodes sorted from last to
    first yields the text that one substitution at a time on a freshly
    parsed tree yields. *)
Lemma range_correct_without_unresolved (script : Script.t)
    (scripts : list Script.t) (sts : list Statement) (rest : string) :
  let o := outcome scripts (getAllParentDirectories (Script.filename script)) in
  Script.code script = layout_text sts rest ->
  Forall (fun st => head st <> "") sts ->
  (forall done todo,
      sts = (done ++ todo)%list ->
      locates (map (substituted o) done ++ todo) rest) ->
  Forall (fun st => o (value st) <> Unresolved) sts ->
  convert script scripts = spec_convert_reparsing script scripts.
Proof.
  intros o Hcode Hheads Hlocates Hresolved.
  pose proof (Hlocates [] sts eq_refl) as Hfirst. cbn [map app] in Hfirst.
  rewrite (convert_layout script scripts sts rest Hcode Hheads Hfirst).
  destruct Hfirst as (ast & Hparse & Hnodes).
  unfold spec_convert_reparsing. rewrite Hcode, Hparse. f_equal.
  fold o. rewrite (converted_text_substituted o rest sts Hresolved).
  assert (List.length ast = List.length sts) as ->
    by (rewrite <- (length_map onImportDeclaration), Hnodes;
        apply layout_nodes_length).
  symmetry.
  apply (spec_reparse_rounds_layout scripts _ sts rest Hlocates sts [] eq_refl).
Qed.

End LayoutLoop.

(** ** The order of the loop and the text in front of a statement *)

Section Offsets.

Context {acorn : Acorn} {helpers : DirectoryHelpers}.

Lemma length_take (s : string) :
  forall n, String.length (JS.take n s) = Nat.min n (String.length s).
Proof.
  induction s as [|c s IH]; intros [|n]; simpl; try reflexivity.
  now rewrite IH.
Qed.

Lemma take_take (s : string) :
  forall n m, n <= m -> JS.take n (JS.take m s) = JS.take n s.
Proof.
  induction s as [|c s IH]; intros [|n] [|m] H; simpl; try reflexivity; try lia.
  rewrite IH by lia. reflexivity.
Qed.

Lemma take_prefix (a b : string) :
  forall n, n <= String.length a -> JS.take n (a ++ b) = JS.take n a.
Proof.
  induction a as [|c a IH]; intros [|n] H; simpl in *.
  - destruct b; reflexivity.
  - lia.
  - reflexivity.
  - rewrite IH by lia. reflexivity.
Qed.

Lemma sort_insert_perm (a : ImportNode) (l : list ImportNode) :
  Permutation (a :: l) (sort_insert a l).
Proof.
  induction l as [|b l IH]; simpl; [apply Permutation_refl|].
  destruct (start b <=? start a)%nat; [apply Permutation_refl|].
  eapply perm_trans; [apply perm_swap|]. now apply perm_skip.
Qed.

Lemma sort_insert_sorted (a : ImportNode) (l : list ImportNode) :
  StronglySorted (fun x y => start y <= start x) l ->
  StronglySorted (fun x y => start y <= start x) (sort_insert a l).
Proof.
  induction 1 as [|b l Hl IH Hb]; simpl.
  - constructor; constructor.
  - destruct (Nat.leb_spec (start b) (start a)) as [Hle|Hlt].
    + constructor; [constructor; assumption|].
      constructor; [exact Hle|].
      eapply Forall_impl; [|exact Hb]. simpl. intros y Hy. lia.
    + constructor; [exact IH|].
      apply Forall_forall. intros y Hy.
      apply (Permutation_in _ (Permutation_sym (sort_insert_perm a l))) in Hy.
      destruct Hy as [<-|Hy]; [lia|].
      rewrite Forall_forall in Hb. now apply Hb.
Qed.

Lemma sort_nodes_sorted_perm (importNodes : list ImportNode) :
  Permutation importNodes (sort_nodes importNodes) /\
  StronglySorted (fun x y => start y <= start x) (sort_nodes importNodes).
Proof.
  induction importNodes as [|a l [IHp IHs]]; simpl.
  - split; constructor.
  - split.
    + eapply perm_trans; [apply perm_skip; exact IHp | apply sort_insert_perm].
    + now apply sort_insert_sorted.
Qed.

(** X1.  The sort of line 51 loses no import node, adds none, and puts them
    in an order in which no node starts further right than one in
    front of it: the loop visits every import exactly once, the last
    one in the text first. *)
Theorem sort_nodes_last_first (importNodes : list ImportNode) :
  Permutation importNodes (sort_nodes importNodes) /\
  StronglySorted (fun x y => start y <= start x) (sort_nodes importNodes).
Proof. apply sort_nodes_sorted_perm. Qed.

Lemma rewrite_import_before (code : string) (node : ImportNode)
    (new : string) (p : nat) :
  p <= statementStart node -> statementStart node <= start node ->
  p <= String.length code ->
  JS.take p (rewrite_import code node new) = JS.take p code /\
  p <= String.length (rewrite_import code node new).
Proof.
  intros HpS HSs Hp. unfold rewrite_import.
  rewrite !substring_0, !substring_from_drop.
  set (edited := JS.take (start node) code ++ new ++ JS.drop (end_ node) code).
  assert (p <= String.length (JS.take (start node) code)) as Hhead
    by (rewrite length_take; lia).
  assert (p <= String.length (JS.take (statementStart node) edited)) as Hkept.
  { rewrite length_take. unfold edited. rewrite length_append. lia. }
  split.
  - rewrite take_prefix by exact Hkept.
    rewrite take_take by exact HpS.
    unfold edited. rewrite take_prefix by exact Hhead.
    apply take_take. lia.
  - rewrite length_append. lia.
Qed.

Lemma place_comment_before (code : string) (node : ImportNode) (p : nat) :
  p <= statementStart node -> p <= String.length code ->
  JS.take p (place_comment code node) = JS.take p code /\
  p <= String.length (place_comment code node).
Proof.
  intros HpS Hp. unfold place_comment. rewrite !substring_0.
  assert (p <= String.length (JS.take (statementStart node) code)) as Hkept
    by (rewrite length_take; lia).
  split.
  - rewrite take_prefix by exact Hkept. now apply take_take.
  - rewrite length_append. lia.
Qed.

Lemma convert_node_before (scripts : list Script.t) (dir : Directories)
    (code : string) (node : ImportNode) (p : nat) :
  p <= statementStart node -> statementStart node <= start node ->
  p <= String.length code ->
  JS.take p (convert_node scripts dir code node) = JS.take p code /\
  p <= String.length (convert_node scripts dir code node).
Proof.
  intros HpS HSs Hp. rewrite convert_node_resolve.
  destruct (resolve scripts dir node) as [new|new| |]; simpl.
  - now apply rewrite_import_before.
  - now apply rewrite_import_before.
  - split; [reflexivity | exact Hp].
  - now apply place_comment_before.
Qed.

(** X3.  One iteration of the loop, whichever branch it takes, leaves the text
    in front of the statement it handles as it was: the ranges stored for
    the statements further left, which the loop handles later, still point
    at them. *)
Theorem iteration_keeps_text_before (scripts : list Script.t)
    (dir : Directories) (code : string) (node : ImportNode) (p : nat) :
  p <= statementStart node ->
  statementStart node <= start node ->
  p <= String.length code ->
  JS.substring (convert_node scripts dir code node) 0 p = JS.substring code 0 p.
Proof.
  intros HpS HSs Hp. rewrite !substring_0.
  now apply convert_node_before.
Qed.

(** X4.  The text of a script in front of its first import statement comes out
    of [convert] as it went in. *)
Theorem convert_keeps_header (script : Script.t) (scripts : list Script.t)
    (ast : list ImportDeclaration) (p : nat) :
  parse (Script.code script) = inr ast ->
  Forall (fun d => p <= fst (range d) /\ fst (range d) <= fst (source_range d) + 1)
         ast ->
  p <= String.length (Script.code script) ->
  exists code,
    convert script scripts = inr code /\
    JS.substring code 0 p = JS.substring (Script.code script) 0 p.
Proof.
  intros Hparse Hnodes Hp. unfold convert. rewrite Hparse.
  eexists. split; [reflexivity|]. rewrite !substring_0.
  unfold convert_nodes.
  set (dir := getAllParentDirectories (Script.filename script)).
  assert (Forall (fun node => p <= statementStart node /\
                              statementStart node <= start node)
                 (sort_nodes (map onImportDeclaration ast))) as Hsorted.
  { apply Forall_forall. intros node Hnode. apply sort_nodes_In in Hnode.
    apply in_map_iff in Hnode as (d & <- & Hd).
    rewrite Forall_forall in Hnodes. exact (Hnodes d Hd). }
  revert Hp. generalize (Script.code script) as code.
  induction Hsorted as [|node nodes [HpS HSs] _ IH]; intros code Hp; simpl.
  - reflexivity.
  - destruct (convert_node_before scripts dir code node p HpS HSs Hp) as [Hkeep Hlen].
    rewrite IH by exact Hlen. exact Hkeep.
Qed.

Lemma sorted_permutations_equal (l1 : list ImportNode) :
  forall l2,
    StronglySorted (fun x y => start y <= start x) l1 ->
    StronglySorted (fun x y => start y <= start x) l2 ->
    Permutation l1 l2 ->
    NoDup (map start l1) ->
    l1 = l2.
Proof.
  induction l1 as [|a l1 IH]; intros l2 Hs1 Hs2 Hperm Hnodup.
  - apply Permutation_nil in Hperm. now subst.
  - destruct l2 as [|b l2];
      [apply Permutation_sym, Permutation_nil in Hperm; discriminate|].
    inversion Hs1 as [|? ? Hs1' Ha]; subst.
    inversion Hs2 as [|? ? Hs2' Hb]; subst.
    inversion Hnodup as [|? ? Hfresh Hnodup']; subst.
    assert (a = b) as <-.
    { assert (In a (b :: l2)) as Hina
        by (eapply Permutation_in; [exact Hperm | now left]).
      assert (In b (a :: l1)) as Hinb
        by (eapply Permutation_in; [apply Permutation_sym; exact Hperm | now left]).
      destruct Hina as [->|Hina]; [reflexivity|].
      destruct Hinb as [->|Hinb]; [reflexivity|].
      exfalso. apply Hfresh.
      rewrite Forall_forall in Ha, Hb.
      specialize (Ha b Hinb). specialize (Hb a Hina).
      replace (start a) with (start b) by lia. now apply in_map. }
    f_equal. apply IH; try assumption.
    now apply Permutation_cons_inv in Hperm.
Qed.

(** X2.  The result of the loop does not depend on the order in which the walk
    reports the import nodes, as long as no two of them start at the same
    offset: the sort puts them in the one order from last to first. *)
Theorem convert_nodes_any_walk_order (scripts : list Script.t)
    (dir : Directories) (code : string) (nodes nodes' : list ImportNode) :
  Permutation nodes nodes' ->
  NoDup (map start nodes) ->
  convert_nodes scripts dir code nodes = convert_nodes scripts dir code nodes'.
Proof.
  intros Hperm Hnodup. unfold convert_nodes. f_equal.
  pose proof (sort_nodes_sorted_perm nodes) as [Hp Hs].
  pose proof (sort_nodes_sorted_perm nodes') as [Hp' Hs'].
  apply sorted_permutations_equal; try assumption.
  - eapply perm_trans; [apply Permutation_sym; exact Hp|].
    eapply perm_trans; [exact Hperm | exact Hp'].
  - eapply Permutation_NoDup; [|exact Hnodup].
    now apply Permutation_map.
Qed.

End Offsets.

(** ** What the batch driver keeps and what it adds *)

Section BatchFacts.

Context {acorn : Acorn} {helpers : DirectoryHelpers}.

Lemma endsWith_app (p s suffix : string) :
  String.length suffix <= String.length s ->
  JS.endsWith (p ++ s) suffix = JS.endsWith s suffix.
Proof.
  intros H. unfold JS.endsWith. rewrite length_append.
  replace (String.length p + String.length s - String.length suffix)
    with (String.length p + (String.length s - String.length suffix)) by lia.
  now rewrite drop_app.
Qed.

Lemma backupFilename_cases (script : Script.t) :
  backupFilename script = "/BACKUP" ++ Script.filename script \/
  backupFilename script = "/BACKUP/" ++ Script.filename script.
Proof.
  unfold backupFilename.
  destruct (JS.startsWith (Script.filename script) "/"); simpl; auto.
Qed.

Ltac decide_chars :=
  repeat match goal with
         | |- context [Ascii.eqb ?x ?y] => destruct (Ascii.eqb x y)
         end;
  reflexivity.

(** X10.  The backup of a script is itself a file the inner loop would take up:
    its name ends in ".js" or ".ns" exactly when the name of the script
    does. *)
Theorem backup_is_migrated_like_its_script (script : Script.t) :
  isMigrated (Script.new (backupFilename script) (Script.code script)
                         (Script.server script)) =
  isMigrated script.
Proof.
  unfold isMigrated. cbn [Script.filename].
  destruct (Nat.le_gt_cases 3 (String.length (Script.filename script))) as [Hlong|Hshort].
  - destruct (backupFilename_cases script) as [-> | ->];
      rewrite !endsWith_app by exact Hlong; reflexivity.
  - unfold backupFilename.
    destruct (Script.filename script) as [|a [|b [|c rest]]];
      [| | | simpl in Hshort; lia];
      destruct (JS.startsWith _ "/"); unfold JS.endsWith; simpl; decide_chars.
Qed.

Lemma prefix_app (a b c : string) :
  String.prefix (a ++ b) (a ++ c) = String.prefix b c.
Proof.
  induction a as [|x a IH]; simpl; [reflexivity|].
  destruct (ascii_dec x x) as [_|Hx]; [exact IH | contradiction].
Qed.

Lemma backupFilename_prefix (script : Script.t) :
  JS.startsWith (backupFilename script) "/BACKUP/" = true.
Proof.
  unfold backupFilename.
  destruct (JS.startsWith (Script.filename script) "/") eqn:Hslash; cbn [negb];
    unfold JS.startsWith in *.
  - change "/BACKUP/" with ("/BACKUP" ++ "/"). rewrite prefix_app. exact Hslash.
  - change ("/BACKUP" ++ "/" ++ Script.filename script)
      with ("/BACKUP/" ++ Script.filename script).
    rewrite <- (append_nil_r "/BACKUP/") at 1. rewrite prefix_app.
    destruct (Script.filename script); reflexivity.
Qed.

Lemma migrate_changed (scripts : list Script.t) (script : Script.t) (code : string) :
  isMigrated script = true ->
  convert script scripts = inr code ->
  code <> Script.code script ->
  migrate scripts script = Changed code.
Proof.
  intros Hjs Hconvert Hcode. unfold migrate. rewrite Hjs, Hconvert.
  destruct (String.eqb_spec (Script.code script) code); congruence.
Qed.

(** X9.  A script whose text [convert] changes is still on its server
    afterwards, under its name and with the new text, and so is a backup
    named by [backupFilename] that holds the text as it was. *)
Theorem changed_script_backed_up (servers : list Server.t) (server : Server.t)
    (script : Script.t) (code : string) :
  In server servers ->
  In script (Server.scripts server) ->
  isMigrated script = true ->
  convert script (Server.scripts server) = inr code ->
  code <> Script.code script ->
  exists server',
    In server' (fst (rewriteImports servers)) /\
    Server.hostname server' = Server.hostname server /\
    In (Script.new (Script.filename script) code (Script.server script))
       (Server.scripts server') /\
    In (Script.new (backupFilename script) (Script.code script)
                   (Script.server script))
       (Server.scripts server').
Proof.
  intros Hserver Hscript Hjs Hconvert Hcode.
  pose proof (migrate_changed _ _ _ Hjs Hconvert Hcode) as Hchanged.
  exists (migrated_server server). rewrite rewriteImports_spec. simpl fst.
  split; [now apply in_map|]. split; [reflexivity|].
  unfold migrated_server. simpl Server.scripts. split; apply in_or_app.
  - left. apply in_map_iff. exists script. split; [|exact Hscript].
    unfold migrated_script. now rewrite Hchanged.
  - right. apply in_flat_map. exists script. split; [exact Hscript|].
    unfold backup_scripts. rewrite Hchanged. now left.
Qed.

Lemma migrated_script_names (scripts : list Script.t) (script : Script.t) :
  Script.filename (migrated_script scripts script) = Script.filename script /\
  Script.server (migrated_script scripts script) = Script.server script.
Proof.
  unfold migrated_script. destruct (migrate scripts script); auto.
Qed.

(** X11.  [rewriteImports] keeps the servers, and on each server the scripts in
    their order with their names and their server fields: only their code
    may differ.  What it adds to a server comes after them and is named
    under /BACKUP/. *)
Theorem rewriteImports_keeps_names (servers : list Server.t) :
  Forall2
    (fun server server' =>
       Server.hostname server' = Server.hostname server /\
       exists visited backups,
         Server.scripts server' = (visited ++ backups)%list /\
         map Script.filename visited = map Script.filename (Server.scripts server) /\
         map Script.server visited = map Script.server (Server.scripts server) /\
         Forall (fun backup =>
                   JS.startsWith (Script.filename backup) "/BACKUP/" = true)
                backups)
    servers (fst (rewriteImports servers)).
Proof.
  rewrite rewriteImports_spec. simpl fst.
  induction servers as [|server servers IH]; simpl; constructor; [|exact IH].
  split; [reflexivity|].
  set (all := Server.scripts server).
  exists (map (migrated_script all) all), (flat_map (backup_scripts all) all).
  split; [reflexivity|]. rewrite !map_map. repeat split.
  - apply map_ext. intros script. apply migrated_script_names.
  - apply map_ext. intros script. apply migrated_script_names.
  - apply Forall_forall. intros backup Hbackup.
    apply in_flat_map in Hbackup as (script & _ & Hbackup).
    unfold backup_scripts in Hbackup.
    destruct (migrate all script); simpl in Hbackup; try contradiction.
    destruct Hbackup as [<-|[]]. apply backupFilename_prefix.
Qed.

Lemma concat_empty (l : list string) :
  String.concat "" l = "" <-> Forall (fun x => x = "") l.
Proof.
  induction l as [|x l IH].
  - split; [constructor | reflexivity].
  - rewrite concat_cons. split.
    + intros H. apply append_eq_empty in H as [Hx Hl].
      constructor; [exact Hx | now apply IH].
    + intros H. inversion H as [|? ? Hx Hl]; subst.
      apply IH in Hl. now rewrite Hl.
Qed.

Lemma report_entry_empty (host : string) (scripts : list Script.t)
    (script : Script.t) :
  report_entry host scripts script = "" <-> migrate scripts script = NoChange.
Proof.
  unfold report_entry.
  destruct (migrate scripts script); split; try reflexivity; try discriminate.
Qed.

Lemma migrate_unchanged (scripts : list Script.t) (script : Script.t) :
  migrate scripts script = NoChange <->
  isMigrated script = false \/ convert script scripts = inr (Script.code script).
Proof.
  unfold migrate. destruct (isMigrated script); [|tauto].
  destruct (convert script scripts) as [err|code].
  - split; [discriminate | intros [H|H]; discriminate].
  - destruct (String.eqb_spec (Script.code script) code) as [->|Hne].
    + tauto.
    + split; [discriminate | intros [H|H]; [discriminate | congruence]].
Qed.

Lemma migrated_server_unchanged (server : Server.t) :
  Forall (fun script => migrate (Server.scripts server) script = NoChange)
         (Server.scripts server) ->
  migrated_server server = server.
Proof.
  destruct server as [host scripts]. unfold migrated_server. simpl.
  intros Hall. f_equal.
  assert (forall all l,
             Forall (fun script => migrate all script = NoChange) l ->
             (map (migrated_script all) l ++ flat_map (backup_scripts all) l)%list = l)
    as Hlist.
  { intros all l. induction 1 as [|script l Hs _ IH]; [reflexivity|].
    simpl. unfold migrated_script at 1, backup_scripts at 1. rewrite Hs.
    simpl. f_equal.
    rewrite <- IH at 3. reflexivity. }
  now apply Hlist.
Qed.

(** X12.  No file is written exactly when no script changes and none fails, that
    is when every script is either not a .js or .ns file or converted to
    its own text; and then [rewriteImports] leaves all servers as they
    were. *)
Theorem nothing_written_iff_nothing_to_do (servers : list Server.t) :
  let idle :=
    Forall (fun server =>
              Forall (fun script =>
                        isMigrated script = false \/
                        convert script (Server.scripts server) =
                        inr (Script.code script))
                     (Server.scripts server))
           servers in
  (snd (rewriteImports servers) = None <-> idle) /\
  (idle -> fst (rewriteImports servers) = servers).
Proof.
  intros idle. rewrite rewriteImports_spec. simpl fst. simpl snd.
  assert (idle <->
          Forall (fun server =>
                    Forall (fun script =>
                              migrate (Server.scripts server) script = NoChange)
                           (Server.scripts server))
                 servers) as Hidle.
  { unfold idle. split; intros H; eapply Forall_impl; try exact H;
      intros server Hs; eapply Forall_impl; try exact Hs;
      intros script; apply migrate_unchanged. }
  split.
  - rewrite Hidle. unfold written.
    destruct (String.eqb_spec (servers_report servers) "") as [Hempty|Hfull].
    + split; [intros _|reflexivity].
      unfold servers_report in Hempty. apply concat_empty in Hempty.
      rewrite Forall_map in Hempty.
      eapply Forall_impl; [|exact Hempty]. intros server Hs.
      unfold server_report, scripts_report in Hs. apply concat_empty in Hs.
      rewrite Forall_map in Hs.
      eapply Forall_impl; [|exact Hs]. intros script. apply report_entry_empty.
    + split; [discriminate|]. intros Hall. exfalso. apply Hfull.
      unfold servers_report. apply concat_empty. rewrite Forall_map.
      eapply Forall_impl; [|exact Hall]. intros server Hs.
      unfold server_report, scripts_report. apply concat_empty.
      rewrite Forall_map.
      eapply Forall_impl; [|exact Hs]. intros script. apply report_entry_empty.
  - intros Hall. apply Hidle in Hall. clear Hidle. clear idle.
    induction Hall as [|server rest Hs _ IH]; [reflexivity|].
    simpl. now rewrite IH, (migrated_server_unchanged server Hs).
Qed.

(** X8.  The result of [convert] depends on the known scripts through the list
    of their names only: their code, which the batch driver changes while
    it goes along, plays no part. *)
Theorem convert_reads_names_only (script : Script.t) (scripts scripts' : list Script.t) :
  map Script.filename scripts = map Script.filename scripts' ->
  convert script scripts = convert script scripts'.
Proof. apply convert_filenames. Qed.

(** X13.  The servers are handled one after the other and independently: the
    loop over a list of servers followed by another list does to each list
    what it does to it alone, and the report is the two reports in a row. *)
Theorem servers_loop_app (servers1 servers2 : list Server.t) (txt : string) :
  servers_loop (servers1 ++ servers2) txt =
  ((fst (servers_loop servers1 txt) ++ fst (servers_loop servers2 ""))%list,
   snd (servers_loop servers1 txt) ++ snd (servers_loop servers2 "")).
Proof.
  rewrite !servers_loop_spec, map_app, servers_report_app. simpl.
  rewrite append_assoc. reflexivity.
Qed.

End BatchFacts.

(** ** The mv command *)

Section MvFacts.

Import Mv.

Context {world : Collaborators}.

Ltac mv_cases :=
  unfold mv, overwrite, caught;
  repeat match goal with
         | |- context [match ?x with _ => _ end] => destruct x eqn:?
         end.

(** The five courses the command can take. *)
Lemma mv_courses (args : list Arg) :
  (exists msg, mv args = [TerminalError msg]) \/
  mv args = [] \/
  (exists rename, renames rename = true /\ mv args = [rename]) \/
  (exists path msg, mv args = [RemoveFile path; TerminalError msg]) \/
  (exists path file,
      mv args = [RemoveFile path;
                 TerminalPrint "Warning: The destination file was overwritten";
                 SetFilename file path] \/
      mv args = [RemoveFile path;
                 TerminalPrint "Warning: The destination file was overwritten";
                 SetFn file path]).
Proof.
  mv_cases;
    first [ left; eexists; reflexivity
          | right; left; reflexivity
          | right; right; left; eexists; split; [|reflexivity]; reflexivity
          | right; right; right; left; eexists _, _; reflexivity
          | right; right; right; right; eexists _, _; left; reflexivity
          | right; right; right; right; eexists _, _; right; reflexivity ].
Qed.

(** X14.  The command never both reports an error and renames a file, and it
    renames at most one file. *)
Theorem mv_error_or_rename (args : list Arg) :
  existsb reports_error (mv args) && existsb renames (mv args) = false /\
  List.length (filter renames (mv args)) <= 1.
Proof.
  destruct (mv_courses args)
    as [(msg & ->) | [-> | [(rename & Hr & ->) | [(path & msg & ->) |
        (path & file & [-> | ->])]]]];
    simpl; try rewrite Hr; simpl; try (split; [reflexivity | lia]).
  destruct rename; simpl in *; try discriminate; split; reflexivity || lia.
Qed.

(** X15.  A script is renamed only if the command got two arguments, the source
    and the new path are both script file names, the source file exists,
    and the server says that the script is not running. *)
Theorem mv_script_rename_guarded (args : list Arg) (file : File) (path : string) :
  In (SetFilename file path) (mv args) ->
  exists arg0 arg1 sourcePath,
    args = [arg0; arg1] /\
    isScriptFilename (toString arg0) = true /\
    isScriptFilename path = true /\
    getFile (toString arg0) = inr (Some file) /\
    getFilepath (toString arg0) = inr sourcePath /\
    isRunning sourcePath = inr false.
Proof.
  intros Hin. revert Hin. mv_cases; simpl; intros Hin;
    repeat match goal with
           | H : _ \/ _ |- _ => destruct H
           | H : False |- _ => contradiction
           | H : _ = SetFilename _ _ |- _ => inversion H; subst; clear H
           end.
  all: eexists _, _, _; repeat split; try eassumption; try reflexivity.
  all: match goal with
       | H : negb _ = false |- _ => apply negb_false_iff in H; exact H
       end.
Qed.

(** X16.  A text file is renamed only if the command got two arguments, the
    source is not a script file name, the source and the new path both end
    in ".txt", and the source file exists and is a text file. *)
Theorem mv_text_rename_guarded (args : list Arg) (file : File) (path : string) :
  In (SetFn file path) (mv args) ->
  exists arg0 arg1,
    args = [arg0; arg1] /\
    isScriptFilename (toString arg0) = false /\
    JS.endsWith (toString arg0) ".txt" = true /\
    JS.endsWith path ".txt" = true /\
    getFile (toString arg0) = inr (Some file) /\
    isTextFile file = true.
Proof.
  intros Hin. revert Hin. mv_cases; simpl; intros Hin;
    repeat match goal with
           | H : _ \/ _ |- _ => destruct H
           | H : False |- _ => contradiction
           | H : _ = SetFn _ _ |- _ => inversion H; subst; clear H
           end.
  all: eexists _, _; repeat split; try eassumption; try reflexivity.
  all: repeat match goal with
              | H : negb _ = false |- _ => apply negb_false_iff in H
              | H : negb _ && negb _ = false |- _ =>
                  apply andb_false_iff in H; destruct H
              end; congruence.
Qed.

(** X17.  When the command removes the destination file, it goes on to print the
    warning and to rename the source to the path it removed, unless the
    removal fails or throws, in which case it reports that and renames
    nothing. *)
Theorem mv_overwrite_warns (args : list Arg) (path : string) :
  In (RemoveFile path) (mv args) ->
  (exists msg, mv args = [RemoveFile path; TerminalError msg]) \/
  (exists file,
      mv args = [RemoveFile path;
                 TerminalPrint "Warning: The destination file was overwritten";
                 SetFilename file path] \/
      mv args = [RemoveFile path;
                 TerminalPrint "Warning: The destination file was overwritten";
                 SetFn file path]).
Proof.
  intros Hin.
  destruct (mv_courses args)
    as [(msg & H) | [H | [(rename & Hr & H) | [(p & msg & H) |
        (p & file & [H | H])]]]];
    rewrite H in *; simpl in Hin.
  - destruct Hin as [Hin|[]]. discriminate Hin.
  - contradiction.
  - destruct Hin as [->|[]]. simpl in Hr. discriminate Hr.
  - destruct Hin as [Hin|[Hin|[]]]; [|discriminate Hin].
    injection Hin as <-. left. eauto.
  - destruct Hin as [Hin|[Hin|[Hin|[]]]]; try discriminate Hin.
    injection Hin as <-. right. eauto.
  - destruct Hin as [Hin|[Hin|[Hin|[]]]]; try discriminate Hin.
    injection Hin as <-. right. eauto.
Qed.

End MvFacts.

(** ** What [convert] makes of a whole script *)

Section LayoutFacts.

Context {acorn : Acorn} {helpers : DirectoryHelpers}.

Lemma converted_text_cut (o : string -> Outcome) (st : Statement)
    (later : list Statement) (rest : string) (resolved : list Statement) :
  Forall (fun r => o (value r) <> Unresolved) resolved ->
  o (value st) = Unresolved ->
  forall before,
    converted_text o before (resolved ++ st :: later) rest =
    layout_text (map (substituted o) resolved) "" ++
    gap st ++ JS.nl ++ comment ++ JS.nl ++
    before ++ layout_text resolved "" ++ gap st.
Proof.
  intros Hresolved Hst.
  induction Hresolved as [|r resolved Hr _ IH]; intros before.
  - cbn [app converted_text map layout_text append]. rewrite Hst.
    reflexivity.
  - cbn [app converted_text map layout_text]. rewrite IH. unfold substituted.
    destruct (o (value r)) as [new|new| |]; try contradiction;
      unfold statement_text; cbn [gap head specifier tail];
      rewrite ?append_assoc; reflexivity.
Qed.

(** X5.  When the parser finds the import statements of a script where they
    are and every import is rewritten or already valid, [convert] returns
    the script with, for each rewritten import, the block put in front of
    the statement and the new specifier in place of the old one; every
    other character of the script is where it was. *)
Theorem convert_rewrites_in_place (script : Script.t) (scripts : list Script.t)
    (sts : list Statement) (rest : string) :
  let o := outcome scripts (getAllParentDirectories (Script.filename script)) in
  Script.code script = layout_text sts rest ->
  Forall (fun st => head st <> "") sts ->
  locates sts rest ->
  Forall (fun st => o (value st) <> Unresolved) sts ->
  convert script scripts = inr (layout_text (map (substituted o) sts) rest).
Proof.
  intros o Hcode Hheads Hlocates Hresolved.
  rewrite (convert_layout script scripts sts rest Hcode Hheads Hlocates).
  fold o. now rewrite (converted_text_substituted o rest sts Hresolved).
Qed.

(** X6.  When an import of a script can not be resolved, the result of
    [convert] ends there: the statements in front of the first such import
    are rewritten as usual, then come the warning line and, in place of
    the import and of everything after it, the original text of the script
    up to that import once more.  The statements after it and the rest of
    the script have no part in the result. *)
Theorem convert_cuts_at_first_unresolved (script : Script.t)
    (scripts : list Script.t) (resolved : list Statement) (st : Statement)
    (later : list Statement) (rest : string) :
  let o := outcome scripts (getAllParentDirectories (Script.filename script)) in
  Script.code script = layout_text (resolved ++ st :: later) rest ->
  Forall (fun st => head st <> "") (resolved ++ st :: later) ->
  locates (resolved ++ st :: later) rest ->
  Forall (fun r => o (value r) <> Unresolved) resolved ->
  o (value st) = Unresolved ->
  convert script scripts =
  inr (layout_text (map (substituted o) resolved) "" ++
       gap st ++ JS.nl ++ comment ++ JS.nl ++
       layout_text resolved "" ++ gap st).
Proof.
  intros o Hcode Hheads Hlocates Hresolved Hst.
  rewrite (convert_layout script scripts _ rest Hcode Hheads Hlocates).
  fold o. rewrite (converted_text_cut o st later rest resolved Hresolved Hst).
  reflexivity.
Qed.

(** X7.  Where line 104 is not reached, the loop over the import nodes sorted
    from the last to the first gives the text that results from replacing
    one import at a time, each found by parsing the text as it stands
    again: no replacement shifts the range of one still to be made. *)
Theorem sorted_loop_matches_reparsing (script : Script.t)
    (scripts : list Script.t) (sts : list Statement) (rest : string) :
  let o := outcome scripts (getAllParentDirectories (Script.filename script)) in
  Script.code script = layout_text sts rest ->
  Forall (fun st => head st <> "") sts ->
  (forall done todo,
      sts = (done ++ todo)%list ->
      locates (map (substituted o) done ++ todo) rest) ->
  Forall (fun st => o (value st) <> Unresolved) sts ->
  convert script scripts = spec_convert_reparsing script scripts.
Proof. apply range_correct_without_unresolved. Qed.

End LayoutFacts.

(** ** One import in the result of [convert] *)

Section ConvertClaims.

Context {acorn : Acorn} {helpers : DirectoryHelpers}.

Lemma converted_text_app (o : string -> Outcome) (rest : string)
    (resolved : list Statement) :
  Forall (fun r => o (value r) <> Unresolved) resolved ->
  forall before sts,
    converted_text o before (resolved ++ sts) rest =
    layout_text (map (substituted o) resolved) "" ++
    converted_text o (before ++ layout_text resolved "") sts rest.
Proof.
  induction 1 as [|r resolved Hr _ IH]; intros before sts.
  - cbn [app map layout_text append]. now rewrite append_nil_r.
  - cbn [app converted_text map layout_text]. rewrite IH. unfold substituted.
    destruct (o (value r)) as [new|new| |]; try contradiction;
      unfold statement_text; cbn [gap head specifier tail];
      rewrite ?append_assoc; reflexivity.
Qed.

(** [convert] on a located script, up to a statement in front of which
    nothing is unresolved. *)
Lemma convert_layout_at (script : Script.t) (scripts : list Script.t)
    (before : list Statement) (st : Statement) (after : list Statement)
    (rest : string) :
  let o := outcome scripts (getAllParentDirectories (Script.filename script)) in
  Script.code script = layout_text (before ++ st :: after) rest ->
  Forall (fun s => head s <> "") (before ++ st :: after) ->
  locates (before ++ st :: after) rest ->
  Forall (fun r => o (value r) <> Unresolved) before ->
  convert script scripts =
  inr (layout_text (map (substituted o) before) "" ++
       converted_text o (layout_text before "") (st :: after) rest).
Proof.
  intros o Hcode Hheads Hlocates Hresolved.
  rewrite (convert_layout script scripts _ rest Hcode Hheads Hlocates).
  fold o. rewrite (converted_text_app o rest before Hresolved).
  reflexivity.
Qed.

(** [convert] on a located script in which an import that could not be
    resolved stands in front of the statement [st]. *)
Lemma convert_layout_cut (script : Script.t) (scripts : list Script.t)
    (resolved : list Statement) (u : Statement) (later : list Statement)
    (st : Statement) (after : list Statement) (rest : string) :
  let o := outcome scripts (getAllParentDirectories (Script.filename script)) in
  Script.code script = layout_text ((resolved ++ u :: later) ++ st :: after) rest ->
  Forall (fun s => head s <> "") ((resolved ++ u :: later) ++ st :: after) ->
  locates ((resolved ++ u :: later) ++ st :: after) rest ->
  Forall (fun r => o (value r) <> Unresolved) resolved ->
  o (value u) = Unresolved ->
  convert script scripts =
  inr (layout_text (map (substituted o) resolved) "" ++
       gap u ++ JS.nl ++ comment ++ JS.nl ++
       layout_text resolved "" ++ gap u).
Proof.
  intros o Hcode Hheads Hlocates Hresolved Hu.
  rewrite <- app_assoc in Hcode, Hheads, Hlocates.
  rewrite (convert_layout script scripts _ rest Hcode Hheads Hlocates).
  fold o. cbn [app].
  now rewrite (converted_text_cut o u (later ++ st :: after) rest resolved Hresolved Hu).
Qed.

(** C7.  An import that [convert] finds in a script and rewrites, by the
    legacy-root or by the directory-relative strategy.  When no import in
    front of it is unresolved, the result of [convert] has, where the
    statement stood, a line break, the opening banner line, the statement
    as it read wrapped as a documentation comment, the closing banner
    line, and then the statement with the new specifier in place of the
    old one.  When an import in front of it could not be resolved, line
    104 has cut the text there: the result is made of the text in front
    of that import alone, and what the loop did to the statement before
    is gone. *)
Theorem rewritten_import_in_convert (script : Script.t) (scripts : list Script.t)
    (before : list Statement) (st : Statement) (after : list Statement)
    (rest new : string) :
  let o := outcome scripts (getAllParentDirectories (Script.filename script)) in
  Script.code script = layout_text (before ++ st :: after) rest ->
  Forall (fun s => head s <> "") (before ++ st :: after) ->
  locates (before ++ st :: after) rest ->
  o (value st) = RootRewrite new \/ o (value st) = DirectoryRewrite new ->
  (Forall (fun r => o (value r) <> Unresolved) before ->
   convert script scripts =
   inr (layout_text (map (substituted o) before) "" ++
        gap st ++ JS.nl ++
        "// =============================== original line ===============================" ++ JS.nl ++
        "/**" ++ JS.nl ++
        " * " ++ statement_text st ++ JS.nl ++
        " */" ++ JS.nl ++
        "// =============================================================================" ++ JS.nl ++
        head st ++ new ++ tail st ++
        converted_text o (layout_text before "" ++ gap st ++ statement_text st)
                       after rest)) /\
  (forall resolved u later,
      before = (resolved ++ u :: later)%list ->
      Forall (fun r => o (value r) <> Unresolved) resolved ->
      o (value u) = Unresolved ->
      convert script scripts =
      inr (layout_text (map (substituted o) resolved) "" ++
           gap u ++ JS.nl ++ comment ++ JS.nl ++
           layout_text resolved "" ++ gap u)).
Proof.
  intros o Hcode Hheads Hlocates Hst. split.
  - intros Hresolved.
    rewrite (convert_layout_at script scripts before st after rest
               Hcode Hheads Hlocates Hresolved).
    fold o. cbn [converted_text].
    assert (match o (value st) with
            | RootRewrite new0 | DirectoryRewrite new0 =>
                gap st ++ original_line_block (statement_text st) ++
                head st ++ new0 ++ tail st ++
                converted_text o
                  (layout_text before "" ++ gap st ++ statement_text st) after rest
            | AlreadyValid =>
                gap st ++ statement_text st ++
                converted_text o
                  (layout_text before "" ++ gap st ++ statement_text st) after rest
            | Unresolved =>
                gap st ++ JS.nl ++ comment ++ JS.nl ++ layout_text before "" ++ gap st
            end =
            gap st ++ original_line_block (statement_text st) ++
            head st ++ new ++ tail st ++
            converted_text o
              (layout_text before "" ++ gap st ++ statement_text st) after rest) as ->
      by (destruct Hst as [-> | ->]; reflexivity).
    unfold original_line_block. rewrite !append_assoc. reflexivity.
  - intros resolved u later -> Hresolved Hu.
    exact (convert_layout_cut script scripts resolved u later st after rest
             Hcode Hheads Hlocates Hresolved Hu).
Qed.

(** C6.  An import of [script] that [convert] finds and for which the
    legacy-root strategy finds nothing.  Its specifier is normalized
    against the parent directories of [script], as written first and with
    ".js" appended second, and where a known file's name equals the
    normalized path the import is rewritten to that name as it stands,
    with nothing put in front of it.  When no import in front of it is
    unresolved, the result of [convert] carries the statement with that
    specifier, behind its block.  When an import in front of it could not
    be resolved, line 104 has cut the text there: the result is made of
    the text in front of that import alone, and the rewrite is gone. *)
Theorem directory_rewrite_in_convert (script : Script.t) (scripts : list Script.t)
    (before : list Statement) (st : Statement) (after : list Statement)
    (rest path : string) (known : Script.t) :
  let dir := getAllParentDirectories (Script.filename script) in
  let o := outcome scripts dir in
  let node := statement_node (String.length (layout_text before "")) st in
  Script.code script = layout_text (before ++ st :: after) rest ->
  Forall (fun s => head s <> "") (before ++ st :: after) ->
  locates (before ++ st :: after) rest ->
  no_legacy_root_match scripts node ->
  directory_path dir node path ->
  directory_match scripts path known ->
  (Forall (fun r => o (value r) <> Unresolved) before ->
   convert script scripts =
   inr (layout_text (map (substituted o) before) "" ++
        gap st ++ original_line_block (statement_text st) ++
        head st ++ Script.filename known ++ tail st ++
        converted_text o (layout_text before "" ++ gap st ++ statement_text st)
                       after rest)) /\
  (forall resolved u later,
      before = (resolved ++ u :: later)%list ->
      Forall (fun r => o (value r) <> Unresolved) resolved ->
      o (value u) = Unresolved ->
      convert script scripts =
      inr (layout_text (map (substituted o) resolved) "" ++
           gap u ++ JS.nl ++ comment ++ JS.nl ++
           layout_text resolved "" ++ gap u)).
Proof.
  intros dir o node Hcode Hheads Hlocates Hnone Hpath Hknown.
  assert (o (value st) = DirectoryRewrite (Script.filename known)) as Hst
    by exact (resolve_directory scripts dir node path known Hnone Hpath Hknown).
  split.
  - intros Hresolved.
    rewrite (convert_layout_at script scripts before st after rest
               Hcode Hheads Hlocates Hresolved).
    fold dir. fold o. cbn [converted_text]. rewrite Hst.
    rewrite ?append_assoc. reflexivity.
  - intros resolved u later -> Hresolved Hu.
    exact (convert_layout_cut script scripts resolved u later st after rest
             Hcode Hheads Hlocates Hresolved Hu).
Qed.

(** [convert] twice on a script each of whose imports is already valid
    or is rewritten by the legacy-root strategy to a specifier that is
    already valid. *)
Lemma convert_twice_settled (script : Script.t) (scripts : list Script.t)
    (sts : list Statement) (rest : string) :
  let o := outcome scripts (getAllParentDirectories (Script.filename script)) in
  let once := layout_text (map (substituted o) sts) rest in
  Script.code script = layout_text sts rest ->
  Forall (fun st => head st <> "") sts ->
  locates sts rest ->
  locates (map (substituted o) sts) rest ->
  Forall (fun st =>
            o (value st) = AlreadyValid \/
            exists new, o (value st) = RootRewrite new /\ o new = AlreadyValid)
         sts ->
  convert script scripts = inr once /\
  convert (Script.new (Script.filename script) once (Script.server script))
          scripts = inr once.
Proof.
  intros o once Hcode Hheads Hlocates Hlocates' Hroot.
  assert (Forall (fun st => o (value st) <> Unresolved) sts) as Hresolved.
  { eapply Forall_impl; [|exact Hroot]. simpl.
    intros st [H|(new & H & _)]; rewrite H; discriminate. }
  split.
  - rewrite (convert_layout script scripts sts rest Hcode Hheads Hlocates).
    fold o. now rewrite (converted_text_substituted o rest sts Hresolved).
  - assert (Forall (fun st => o (value st) = AlreadyValid)
                   (map (substituted o) sts)) as Hvalid.
    { apply Forall_map. eapply Forall_impl; [|exact Hroot]. simpl.
      intros st [H|(new & H & Hnew)]; unfold substituted; rewrite H;
        [exact H | exact Hnew]. }
    assert (Forall (fun st => head st <> "") (map (substituted o) sts)) as Hheads'.
    { apply Forall_map. eapply Forall_impl; [|exact Hheads]. simpl.
      intros st Hst. unfold substituted. destruct (o (value st)); exact Hst. }
    rewrite (convert_layout
               (Script.new (Script.filename script) once (Script.server script))
               scripts (map (substituted o) sts) rest
               eq_refl Hheads' Hlocates').
    cbn [Script.filename]. fold o. f_equal.
    rewrite (converted_text_substituted o rest (map (substituted o) sts))
      by (eapply Forall_impl; [|exact Hvalid]; simpl;
          intros st H; rewrite H; discriminate).
    unfold once. f_equal.
    rewrite <- (map_id (map (substituted o) sts)) at 2.
    apply map_ext_in. intros st Hst.
    rewrite Forall_forall in Hvalid. unfold substituted at 1.
    now rewrite (Hvalid st Hst).
Qed.

Lemma legacy_specifier_slash (name : string) :
  legacy_specifier (specifier_node ("/" ++ name)) = "/" ++ name.
Proof. reflexivity. Qed.

(** What the two runs make of a specifier that the legacy-root strategy
    settles with a stable name. *)
Lemma legacy_root_stable_outcome (scripts : list Script.t) (dir : Directories)
    (value : string) (known : Script.t) :
  legacy_root_stable scripts value known ->
  (outcome scripts dir value = AlreadyValid \/
   outcome scripts dir value = RootRewrite ("/" ++ Script.filename known)) /\
  outcome scripts dir ("/" ++ Script.filename known) = AlreadyValid.
Proof.
  intros (Hmatch & Hsame & Hpath). split.
  - change (outcome scripts dir value)
      with (resolve scripts dir (specifier_node value)).
    rewrite (resolve_legacy_root scripts dir _ known Hmatch).
    destruct (JS.loose_eq _ _); [left | right]; reflexivity.
  - change (outcome scripts dir ("/" ++ Script.filename known))
      with (resolve scripts dir (specifier_node ("/" ++ Script.filename known))).
    assert (legacy_root_match scripts
              (specifier_node ("/" ++ Script.filename known)) known) as Hmatch'.
    { destruct Hmatch as (before & after & Hscripts & Hknown & Hbefore).
      subst scripts. exists before, after. split; [reflexivity|].
      rewrite legacy_specifier_slash.
      apply Forall_app in Hsame as [Hsame_before Hsame_known].
      apply Forall_cons_iff in Hsame_known as [Hsame_known _].
      split.
      - now rewrite Hsame_known.
      - clear - Hbefore Hsame_before.
        induction Hbefore as [|s before Hs _ IH]; constructor.
        + apply Forall_inv in Hsame_before. now rewrite Hsame_before.
        + apply IH. now apply Forall_inv_tail in Hsame_before. }
    rewrite (resolve_legacy_root scripts dir _ known Hmatch').
    cbn [filename specifier_node]. rewrite Hpath. cbn [JS.loose_eq].
    now rewrite String.eqb_refl.
Qed.

(** C5, amended.  A script each of whose imports the legacy-root strategy
    settles with a known file whose root-relative name is stable: "/"
    followed by the file's name equals, under the import convention, the
    same known files as the specifier did, and the root-relative path
    computed from it is that text itself.  If the parser finds the import
    statements in the script and in the result, [convert] returns the
    script with every specifier that was not yet root-relative replaced,
    behind its block, and converting that result once more, with the same
    known files, returns it unchanged: no import is rewritten again and
    no second block is put in front of one. *)
Theorem convert_twice_legacy_root (script : Script.t) (scripts : list Script.t)
    (sts : list Statement) (rest : string) :
  let o := outcome scripts (getAllParentDirectories (Script.filename script)) in
  let once := layout_text (map (substituted o) sts) rest in
  Script.code script = layout_text sts rest ->
  Forall (fun st => head st <> "") sts ->
  locates sts rest ->
  locates (map (substituted o) sts) rest ->
  Forall (fun st => exists known, legacy_root_stable scripts (value st) known) sts ->
  convert script scripts = inr once /\
  convert (Script.new (Script.filename script) once (Script.server script))
          scripts = inr once.
Proof.
  intros o once Hcode Hheads Hlocates Hlocates' Hstable.
  apply (convert_twice_settled script scripts sts rest
           Hcode Hheads Hlocates Hlocates').
  eapply Forall_impl; [|exact Hstable]. simpl. intros st [known Hknown].
  destruct (legacy_root_stable_outcome scripts
              (getAllParentDirectories (Script.filename script))
              (value st) known Hknown) as [[Hvalid | Hrewrite] Hnew].
  - left. exact Hvalid.
  - right. exists ("/" ++ Script.filename known). split; assumption.
Qed.

End ConvertClaims.

Section PriorityInConvert.

Context {acorn : Acorn}.

Lemma legacy_root_match_helpers (h h' : DirectoryHelpers)
    (scripts : list Script.t) (node : ImportNode) (known : Script.t) :
  (forall a b, @areImportsEquals h' a b = @areImportsEquals h a b) ->
  @legacy_root_match h scripts node known ->
  @legacy_root_match h' scripts node known.
Proof.
  intros Heq (before & after & -> & Hknown & Hbefore).
  exists before, after. split; [reflexivity|]. split.
  - now rewrite Heq.
  - eapply Forall_impl; [|exact Hbefore]. simpl. intros s Hs. now rewrite Heq.
Qed.

(** C2, amended.  An import that [convert] finds in a script, in front of
    which no import is unresolved, and for which the legacy-root strategy
    finds a known file.  The directory-relative strategy plays no part in
    what becomes of it: the outcome is the same whatever the helpers of
    that strategy compute.  In the result of [convert] the statement
    stands, behind its block, with the specifier "/" followed by the
    file's name, unless the root-relative path computed from that name
    equals the specifier as written, in which case the statement stands
    as it was. *)
Theorem legacy_root_first_in_convert (helpers : DirectoryHelpers)
    (script : Script.t) (scripts : list Script.t)
    (before : list Statement) (st : Statement) (after : list Statement)
    (rest : string) (known : Script.t) :
  let dir := getAllParentDirectories (Script.filename script) in
  let o := outcome scripts dir in
  let node := statement_node (String.length (layout_text before "")) st in
  Script.code script = layout_text (before ++ st :: after) rest ->
  Forall (fun s => head s <> "") (before ++ st :: after) ->
  locates (before ++ st :: after) rest ->
  Forall (fun r => o (value r) <> Unresolved) before ->
  legacy_root_match scripts node known ->
  convert script scripts =
  inr (layout_text (map (substituted o) before) "" ++
       gap st ++
       (if JS.loose_eq (evaluateFilePath ("/" ++ Script.filename known) None)
                       (value st)
        then statement_text st
        else original_line_block (statement_text st) ++
             head st ++ ("/" ++ Script.filename known) ++ tail st) ++
       converted_text o (layout_text before "" ++ gap st ++ statement_text st)
                      after rest) /\
  forall (helpers' : DirectoryHelpers) (dir' : @Directories helpers'),
    (forall a b, @areImportsEquals helpers' a b = @areImportsEquals helpers a b) ->
    (forall p, @evaluateFilePath helpers' p None = @evaluateFilePath helpers p None) ->
    @outcome helpers' scripts dir' (value st) = @outcome helpers scripts dir (value st).
Proof.
  intros dir o node Hcode Hheads Hlocates Hresolved Hmatch.
  pose proof (resolve_legacy_root scripts dir node known Hmatch) as Hst.
  split.
  - rewrite (convert_layout_at script scripts before st after rest
               Hcode Hheads Hlocates Hresolved).
    fold dir. fold o. cbn [converted_text].
    change (o (value st)) with (resolve scripts dir node). rewrite Hst.
    change (filename node) with (value st).
    destruct (JS.loose_eq _ _); rewrite ?append_assoc; reflexivity.
  - intros helpers' dir' Himports Hevaluate.
    pose proof (legacy_root_match_helpers helpers helpers' scripts node known
                  Himports Hmatch) as Hmatch'.
    change (@outcome helpers' scripts dir' (value st))
      with (@resolve helpers' scripts dir' node).
    change (@outcome helpers scripts dir (value st))
      with (@resolve helpers scripts dir node).
    rewrite Hst, (resolve_legacy_root (helpers := helpers') scripts dir' node known Hmatch').
    now rewrite Hevaluate.
Qed.

End PriorityInConvert.

(** ** The worked examples, checked *)

Import SpecHelpers ImportScanner Examples.

(** Exhibits the first match of a concrete list of known files. *)
Ltac found before after :=
  exists before, after;
  split; [reflexivity | split; [reflexivity | repeat constructor]].

(** The end-to-end example: [import {f} from './helpers.js';] with the
    known file helpers.js. *)
Lemma rewritten_import_block_witness :
  convert_node [legacy_main; helpers_js] (getAllParentDirectories "main.js")
    ("" ++ "import {f} from '" ++ "./helpers.js" ++ "';" ++ JS.nl ++ "// body")
    legacy_node =
  "" ++ JS.nl ++
  "// =============================== original line ===============================" ++ JS.nl ++
  "/**" ++ JS.nl ++
  " * " ++ ("import {f} from '" ++ "./helpers.js" ++ "';") ++ JS.nl ++
  " */" ++ JS.nl ++
  "// =============================================================================" ++ JS.nl ++
  "import {f} from '" ++ "/helpers.js" ++ "';" ++ JS.nl ++ "// body".
Proof.
  apply (rewritten_import_block [legacy_main; helpers_js]
           (getAllParentDirectories "main.js") legacy_node
           "" "import {f} from '" "./helpers.js" "';" (JS.nl ++ "// body")
           "/helpers.js").
  - repeat split; reflexivity.
  - left. reflexivity.
Defined.

(** The no-op example: the specifier /helpers.js with the known file
    helpers.js. *)
Lemma already_valid_import_untouched_witness :
  convert_node [valid_main; helpers_js] (getAllParentDirectories "main.js")
    valid_code valid_node = valid_code.
Proof.
  apply (already_valid_import_untouched [valid_main; helpers_js]
           (getAllParentDirectories "main.js") valid_code valid_node helpers_js).
  - found [valid_main] (@nil Script.t).
  - reflexivity.
Defined.

(** The directory fallback example: importer /scripts/main.js, specifier
    util.js, known file scripts/util.js. *)
Lemma directory_relative_rewrite_witness :
  convert_node [util_main; scripts_util_js]
    (getAllParentDirectories "/scripts/main.js") util_code util_node =
  original_line_block "import {f} from 'util.js';" ++
  "import {f} from 'scripts/util.js';" ++ JS.nl ++ "// body".
Proof.
  apply (directory_relative_rewrite util_main [util_main; scripts_util_js]
           util_code util_node "/scripts/util.js" scripts_util_js).
  - repeat constructor.
  - left. split; [reflexivity | discriminate].
  - found [util_main] (@nil Script.t).
Defined.

(** Root preference: in /scripts/main.js the specifier ./helpers.js finds
    helpers.js at the root although scripts/helpers.js exists as well. *)
Lemma legacy_root_strategy_first_witness :
  convert_node [nested_main; scripts_helpers_js; helpers_js]
    (getAllParentDirectories "/scripts/main.js") legacy_code legacy_node =
  rewrite_import legacy_code legacy_node "/helpers.js".
Proof.
  refine (proj1 (legacy_root_strategy_first SpecHelpers.helpers
                   [nested_main; scripts_helpers_js; helpers_js]
                   (getAllParentDirectories "/scripts/main.js") legacy_code
                   legacy_node helpers_js _)).
  found [nested_main; scripts_helpers_js] (@nil Script.t).
Defined.

(** C2 as stated fails on the no-op example.  [convert] finds one import
    in [valid_main], with the specifier /helpers.js; the legacy-root
    strategy finds helpers.js for it; and [convert] returns the script as
    it is, not with the specifier rewritten to "/" followed by the name
    found behind a block. *)
Lemma legacy_root_match_not_rewritten :
  (exists ast,
      parse (Script.code valid_main) = inr ast /\
      map onImportDeclaration ast = [valid_node]) /\
  legacy_root_match [valid_main; helpers_js] valid_node helpers_js /\
  convert valid_main [valid_main; helpers_js] = inr valid_code /\
  convert valid_main [valid_main; helpers_js] <>
  inr (rewrite_import valid_code valid_node ("/" ++ Script.filename helpers_js)).
Proof.
  split; [|split; [|split]].
  - eexists. split; reflexivity.
  - found [valid_main] (@nil Script.t).
  - reflexivity.
  - vm_compute. discriminate.
Qed.

(** On the server [home], a.js is rewritten and backed up, broken.js is
    reported with the parser's message, and the scripts after it are still
    visited. *)
Lemma parse_failure_isolated_witness :
  rewriteImports [home] =
  ([Server.mk "home"
      [script "a.js" (rewrite_import legacy_code legacy_node "/helpers.js");
       broken_js; notes_txt; helpers_js;
       script "/BACKUP/a.js" legacy_code]],
   Some ("IMPORT_DETECTED_CHANGES.txt",
         "// Changed import statements in a.js on home" ++
         "// Failed to convert broken.js on home, reason: Error: Error processing script for migration, parse error: SyntaxError: Unexpected token" ++
         JS.nl)).
Proof.
  exact (parse_failure_isolated [] [] home [legacy_a] [notes_txt; helpers_js]
           broken_js "SyntaxError: Unexpected token" eq_refl eq_refl eq_refl).
Defined.

(** On the server [home], notes.txt holds a legacy import and is left as it
    is, without a line in the report. *)
Lemma other_files_left_alone_witness :
  rewriteImports [home] =
  ([Server.mk "home"
      [script "a.js" (rewrite_import legacy_code legacy_node "/helpers.js");
       broken_js; script "notes.txt" "import './helpers.js';"; helpers_js;
       script "/BACKUP/a.js" legacy_code]],
   Some ("IMPORT_DETECTED_CHANGES.txt",
         "// Changed import statements in a.js on home" ++
         "// Failed to convert broken.js on home, reason: Error: Error processing script for migration, parse error: SyntaxError: Unexpected token" ++
         JS.nl)).
Proof.
  exact (other_files_left_alone [] [] home [legacy_a; broken_js] [helpers_js]
           notes_txt eq_refl eq_refl eq_refl).
Defined.

(** C9 as stated fails: both scripts of the server [settled] are processed,
    neither changes, and no report is written at all. *)
Lemma unchanged_script_not_reported :
  isMigrated valid_main = true /\
  convert valid_main (Server.scripts settled) = inr (Script.code valid_main) /\
  rewriteImports [settled] = ([settled], None).
Proof. repeat split. Qed.

(** C1 fails on the code.  The script [missing_main] is a comment line, an
    import of missing.js, which no known file matches under either
    strategy, and another comment line.  The warning line should be put
    in front of the import and everything else kept; line 104 instead
    appends to the text before the statement the warning and then the text
    before the statement once more, so the import statement and all that
    follows it are gone. *)
Theorem unresolved_import_statement_lost :
  convert missing_main [missing_main; helpers_js] =
  inr ("// header" ++ JS.nl ++
       JS.nl ++ comment ++ JS.nl ++
       "// header" ++ JS.nl).
Proof. reflexivity. Qed.

(** C5 as stated fails on the directory fallback example: the first run
    rewrites util.js to scripts/util.js, and the second run, which finds
    scripts/util.js by the legacy-root strategy, rewrites it to
    /scripts/util.js and puts a second block in front of the first. *)
Lemma directory_rewrite_converted_again :
  exists once twice,
    convert util_main [util_main; scripts_util_js] = inr once /\
    convert (script "/scripts/main.js" once) [util_main; scripts_util_js] = inr twice /\
    once = rewrite_import util_code util_node "scripts/util.js" /\
    twice <> once.
Proof.
  eexists _, _. repeat split; try reflexivity.
  vm_compute. discriminate.
Qed.

(** C4 fails on the code.  In [mixed_main] a legacy import precedes an
    import of a file that does not exist.  One substitution at a time on a
    freshly parsed tree gives the block and the rewritten first import,
    then the warning line and the second import.  [convert] handles the
    second import first and, by the slip of line 104, replaces it and the
    rest of the text by a copy of the text before it; the result ends in
    the first import as it was written, without block, and the second
    import is gone. *)
Theorem unresolved_import_breaks_range_correctness :
  spec_convert_reparsing mixed_main [mixed_main; helpers_js] =
  inr (original_line_block "import './helpers.js';" ++
       "import '/helpers.js';" ++ JS.nl ++
       JS.nl ++ comment ++ JS.nl ++
       "import 'missing.js';" ++ JS.nl) /\
  convert mixed_main [mixed_main; helpers_js] =
  inr (original_line_block "import './helpers.js';" ++
       "import '/helpers.js';" ++ JS.nl ++
       JS.nl ++ comment ++ JS.nl ++
       "import './helpers.js';" ++ JS.nl) /\
  convert mixed_main [mixed_main; helpers_js] <>
  spec_convert_reparsing mixed_main [mixed_main; helpers_js].
Proof. repeat split. vm_compute. discriminate. Qed.

(** Range correctness on a script with a legacy-root and a
    directory-relative import: the scanner finds the statements at every
    stage, and [convert] agrees with one substitution at a time. *)
Lemma range_correct_two_statements :
  convert two_main [two_main; helpers_js; scripts_util_js] =
  spec_convert_reparsing two_main [two_main; helpers_js; scripts_util_js] /\
  convert two_main [two_main; helpers_js; scripts_util_js] =
  inr (original_line_block "import {f} from './helpers.js';" ++
       "import {f} from '/helpers.js';" ++ JS.nl ++
       original_line_block "import {g} from 'util.js';" ++
       "import {g} from 'scripts/util.js';" ++ JS.nl ++ "// body").
Proof.
  split; [|reflexivity].
  apply (range_correct_without_unresolved two_main
           [two_main; helpers_js; scripts_util_js] two_statements two_rest).
  - reflexivity.
  - repeat constructor; discriminate.
  - intros [|a [|b [|c done]]] todo Hsplit; cbn in Hsplit.
    + subst todo. eexists. split; [vm_compute; reflexivity | reflexivity].
    + injection Hsplit as <- <-. eexists. split; [vm_compute; reflexivity | reflexivity].
    + injection Hsplit as <- <- <-.
      eexists. split; [vm_compute; reflexivity | reflexivity].
    + discriminate Hsplit.
  - repeat constructor; vm_compute; discriminate.
Qed.

(** ** One import in the result of [convert], checked *)

(** The end-to-end example, and the script [lost_main], in which the
    legacy import of helpers.js stands behind an import of missing.js:
    there [convert] returns the warning line alone, and neither the block
    nor the rewritten import is in its result. *)
Lemma rewritten_import_in_convert_witness :
  convert legacy_main [legacy_main; helpers_js] =
  inr (JS.nl ++
       "// =============================== original line ===============================" ++ JS.nl ++
       "/**" ++ JS.nl ++
       " * import {f} from './helpers.js';" ++ JS.nl ++
       " */" ++ JS.nl ++
       "// =============================================================================" ++ JS.nl ++
       "import {f} from '/helpers.js';" ++ JS.nl ++ "// body") /\
  convert lost_main [lost_main; helpers_js] = inr (JS.nl ++ comment ++ JS.nl).
Proof.
  split.
  - refine ((fun H => _)
              (proj1 (rewritten_import_in_convert legacy_main
                        [legacy_main; helpers_js] [] legacy_statement []
                        body_rest "/helpers.js" eq_refl _ _ _) _)).
    + vm_compute in H |- *. exact H.
    + repeat constructor; discriminate.
    + eexists. split; [vm_compute; reflexivity | reflexivity].
    + left. reflexivity.
    + constructor.
  - refine ((fun H => _)
              (proj2 (rewritten_import_in_convert lost_main
                        [lost_main; helpers_js] [lost_unresolved] lost_rewritten []
                        JS.nl "/helpers.js" eq_refl _ _ _)
                     [] lost_unresolved [] eq_refl _ _)).
    + vm_compute in H |- *. exact H.
    + repeat constructor; discriminate.
    + eexists. split; [vm_compute; reflexivity | reflexivity].
    + left. reflexivity.
    + constructor.
    + reflexivity.
Defined.

(** The directory fallback example, importer /scripts/main.js, specifier
    util.js, known file scripts/util.js; and the script [dir_lost_main],
    in which that import stands behind an import of missing.js: there
    [convert] returns the warning line alone, and the import rewritten to
    scripts/util.js is not in its result. *)
Lemma directory_rewrite_in_convert_witness :
  convert util_main [util_main; scripts_util_js] =
  inr (original_line_block "import {f} from 'util.js';" ++
       "import {f} from 'scripts/util.js';" ++ JS.nl ++ "// body") /\
  convert dir_lost_main [dir_lost_main; scripts_util_js] =
  inr (JS.nl ++ comment ++ JS.nl).
Proof.
  split.
  - refine ((fun H => _)
              (proj1 (directory_rewrite_in_convert util_main
                        [util_main; scripts_util_js] [] util_statement []
                        body_rest "/scripts/util.js" scripts_util_js
                        eq_refl _ _ _ _ _) _)).
    + vm_compute in H |- *. exact H.
    + repeat constructor; discriminate.
    + eexists. split; [vm_compute; reflexivity | reflexivity].
    + repeat constructor.
    + left. split; [reflexivity | discriminate].
    + found [util_main] (@nil Script.t).
    + constructor.
  - refine ((fun H => _)
              (proj2 (directory_rewrite_in_convert dir_lost_main
                        [dir_lost_main; scripts_util_js] [lost_unresolved]
                        dir_lost_rewritten [] JS.nl "/scripts/util.js"
                        scripts_util_js eq_refl _ _ _ _ _)
                     [] lost_unresolved [] eq_refl _ _)).
    + vm_compute in H |- *. exact H.
    + repeat constructor; discriminate.
    + eexists. split; [vm_compute; reflexivity | reflexivity].
    + repeat constructor.
    + left. split; [reflexivity | discriminate].
    + found [dir_lost_main] (@nil Script.t).
    + constructor.
    + reflexivity.
Defined.

(** Root preference: in /scripts/main.js the specifier ./helpers.js finds
    helpers.js at the root although scripts/helpers.js is a known file as
    well, and [convert] writes /helpers.js. *)
Lemma legacy_root_first_in_convert_witness :
  convert nested_main [nested_main; scripts_helpers_js; helpers_js] =
  inr (original_line_block "import {f} from './helpers.js';" ++
       "import {f} from '/helpers.js';" ++ JS.nl ++ "// body").
Proof.
  refine ((fun H => _)
            (proj1 (legacy_root_first_in_convert SpecHelpers.helpers nested_main
                      [nested_main; scripts_helpers_js; helpers_js]
                      [] legacy_statement [] body_rest helpers_js
                      eq_refl _ _ _ _))).
  - vm_compute in H |- *. exact H.
  - repeat constructor; discriminate.
  - eexists. split; [vm_compute; reflexivity | reflexivity].
  - constructor.
  - found [nested_main; scripts_helpers_js] (@nil Script.t).
Defined.

(** The end-to-end example converted twice: the first run writes
    /helpers.js behind the block, the second run returns that text as it
    is. *)
Lemma convert_twice_legacy_root_witness :
  convert legacy_main [legacy_main; helpers_js] =
  inr (original_line_block "import {f} from './helpers.js';" ++
       "import {f} from '/helpers.js';" ++ JS.nl ++ "// body") /\
  convert (script "main.js"
             (original_line_block "import {f} from './helpers.js';" ++
              "import {f} from '/helpers.js';" ++ JS.nl ++ "// body"))
          [legacy_main; helpers_js] =
  inr (original_line_block "import {f} from './helpers.js';" ++
       "import {f} from '/helpers.js';" ++ JS.nl ++ "// body").
Proof.
  refine ((fun H => _)
            (convert_twice_legacy_root legacy_main [legacy_main; helpers_js]
               [legacy_statement] body_rest eq_refl _ _ _ _)).
  - vm_compute in H |- *. exact H.
  - repeat constructor; discriminate.
  - eexists. split; [vm_compute; reflexivity | reflexivity].
  - eexists. split; [vm_compute; reflexivity | reflexivity].
  - constructor; [|constructor]. exists helpers_js. split; [|split].
    + found [legacy_main] (@nil Script.t).
    + repeat constructor.
    + reflexivity.
Defined.

(** The stability of the name written is needed.  With the known file
    /lib/util.js the legacy-root strategy finds a file for the specifier
    lib/util.js, the first run writes //lib/util.js, which no known file
    equals, and the second run changes the text again. *)
Lemma unstable_name_converted_again :
  legacy_root_match [lib_main; lib_util_js] (specifier_node "lib/util.js")
                    lib_util_js /\
  exists once twice,
    convert lib_main [lib_main; lib_util_js] = inr once /\
    convert (script "main.js" once) [lib_main; lib_util_js] = inr twice /\
    once = original_line_block "import {f} from 'lib/util.js';" ++
           "import {f} from '//lib/util.js';" ++ JS.nl ++ "// body" /\
    twice <> once.
Proof.
  split.
  - found [lib_main] (@nil Script.t).
  - eexists _, _. repeat split; try reflexivity.
    vm_compute. discriminate.
Qed.

(** ** The further facts, checked on the examples *)

(** The comment line in front of the import of missing.js stays. *)
Lemma iteration_keeps_text_before_witness :
  JS.substring
    (convert_node [missing_main; helpers_js] (getAllParentDirectories "main.js")
                  missing_code missing_node) 0 10 =
  JS.substring missing_code 0 10.
Proof.
  apply (iteration_keeps_text_before [missing_main; helpers_js]
           (getAllParentDirectories "main.js") missing_code missing_node 10).
  - apply le_n.
  - simpl. lia.
  - vm_compute. lia.
Defined.

Lemma convert_keeps_header_witness :
  exists code,
    convert missing_main [missing_main; helpers_js] = inr code /\
    JS.substring code 0 10 = JS.substring (Script.code missing_main) 0 10.
Proof.
  apply (convert_keeps_header missing_main [missing_main; helpers_js]
           [ImportScanner.declaration 10 26 38 39 "missing.js"] 10).
  - reflexivity.
  - constructor; [simpl; lia | constructor].
  - vm_compute. lia.
Defined.

(** On the server [home], a.js is there with its new text, and
    /BACKUP/a.js with the old one. *)
Lemma changed_script_backed_up_witness :
  exists server',
    In server' (fst (rewriteImports [home])) /\
    Server.hostname server' = "home" /\
    In (script "a.js" (rewrite_import legacy_code legacy_node "/helpers.js"))
       (Server.scripts server') /\
    In (script "/BACKUP/a.js" legacy_code) (Server.scripts server').
Proof.
  apply (changed_script_backed_up [home] home legacy_a
           (rewrite_import legacy_code legacy_node "/helpers.js")).
  - left. reflexivity.
  - left. reflexivity.
  - reflexivity.
  - reflexivity.
  - vm_compute. discriminate.
Defined.

(** The code of the known scripts may be anything. *)
Lemma convert_reads_names_only_witness :
  convert legacy_main [legacy_main; helpers_js] =
  convert legacy_main [script "main.js" ""; script "helpers.js" "// rewritten"].
Proof.
  apply (convert_reads_names_only legacy_main [legacy_main; helpers_js]
           [script "main.js" ""; script "helpers.js" "// rewritten"]).
  reflexivity.
Defined.

(** The script with the two imports, both rewritten in place. *)
Lemma convert_rewrites_in_place_witness :
  convert two_main [two_main; helpers_js; scripts_util_js] =
  inr (original_line_block "import {f} from './helpers.js';" ++
       "import {f} from '/helpers.js';" ++ JS.nl ++
       original_line_block "import {g} from 'util.js';" ++
       "import {g} from 'scripts/util.js';" ++ JS.nl ++ "// body").
Proof.
  refine (eq_trans
            (convert_rewrites_in_place two_main
               [two_main; helpers_js; scripts_util_js] two_statements two_rest
               _ _ _ _) _).
  - reflexivity.
  - repeat constructor; discriminate.
  - eexists. split; [vm_compute; reflexivity | reflexivity].
  - repeat constructor; vm_compute; discriminate.
  - vm_compute. reflexivity.
Defined.

(** [mixed_main]: the result ends with the warning and the text in front
    of the import of missing.js as it was written. *)
Lemma convert_cuts_at_first_unresolved_witness :
  convert mixed_main [mixed_main; helpers_js] =
  inr (original_line_block "import './helpers.js';" ++
       "import '/helpers.js';" ++ JS.nl ++
       JS.nl ++ comment ++ JS.nl ++
       "import './helpers.js';" ++ JS.nl).
Proof.
  refine (eq_trans
            (convert_cuts_at_first_unresolved mixed_main
               [mixed_main; helpers_js] mixed_resolved mixed_unresolved []
               JS.nl _ _ _ _ _) _).
  - reflexivity.
  - repeat constructor; discriminate.
  - eexists. split; [vm_compute; reflexivity | reflexivity].
  - repeat constructor; vm_compute; discriminate.
  - reflexivity.
  - vm_compute. reflexivity.
Defined.

Lemma sorted_loop_matches_reparsing_witness :
  convert two_main [two_main; helpers_js; scripts_util_js] =
  spec_convert_reparsing two_main [two_main; helpers_js; scripts_util_js].
Proof.
  apply (sorted_loop_matches_reparsing two_main
           [two_main; helpers_js; scripts_util_js] two_statements two_rest).
  - reflexivity.
  - repeat constructor; discriminate.
  - intros [|a [|b [|c done]]] todo Hsplit; cbn in Hsplit.
    + subst todo. eexists. split; [vm_compute; reflexivity | reflexivity].
    + injection Hsplit as <- <-. eexists. split; [vm_compute; reflexivity | reflexivity].
    + injection Hsplit as <- <- <-.
      eexists. split; [vm_compute; reflexivity | reflexivity].
    + discriminate Hsplit.
  - repeat constructor; vm_compute; discriminate.
Defined.

(** The two imports of [two_code], reported in either order. *)
Lemma convert_nodes_any_walk_order_witness :
  convert_nodes [two_main; helpers_js; scripts_util_js]
    (getAllParentDirectories "/scripts/main.js") two_code
    [two_node_f; two_node_g] =
  convert_nodes [two_main; helpers_js; scripts_util_js]
    (getAllParentDirectories "/scripts/main.js") two_code
    [two_node_g; two_node_f].
Proof.
  apply (convert_nodes_any_walk_order [two_main; helpers_js; scripts_util_js]
           (getAllParentDirectories "/scripts/main.js") two_code
           [two_node_f; two_node_g] [two_node_g; two_node_f]).
  - apply perm_swap.
  - simpl. constructor.
    + intros [H|[]]. discriminate H.
    + constructor; [intros [] | constructor].
Defined.

Import Mv MvExample.

(** [mv a.js c.js]: a.js is a script that is not running. *)
Lemma mv_script_rename_guarded_witness :
  exists (arg0 arg1 : Arg) sourcePath,
    ["a.js"; "c.js"] = [arg0; arg1] /\
    isScriptFilename (toString arg0) = true /\
    isScriptFilename "c.js" = true /\
    getFile (toString arg0) = inr (Some "a.js") /\
    getFilepath (toString arg0) = inr sourcePath /\
    isRunning sourcePath = inr false.
Proof.
  apply (mv_script_rename_guarded (world := world) ["a.js"; "c.js"] "a.js" "c.js").
  left. reflexivity.
Defined.

(** [mv notes.txt todo.txt] *)
Lemma mv_text_rename_guarded_witness :
  exists arg0 arg1 : Arg,
    ["notes.txt"; "todo.txt"] = [arg0; arg1] /\
    isScriptFilename (toString arg0) = false /\
    JS.endsWith (toString arg0) ".txt" = true /\
    JS.endsWith "todo.txt" ".txt" = true /\
    getFile (toString arg0) = inr (Some "notes.txt") /\
    isTextFile "notes.txt" = true.
Proof.
  apply (mv_text_rename_guarded (world := world) ["notes.txt"; "todo.txt"] "notes.txt" "todo.txt").
  left. reflexivity.
Defined.

(** [mv a.js b.js]: b.js exists and is removed first. *)
Lemma mv_overwrite_warns_witness :
  (exists msg, mv (world := world) ["a.js"; "b.js"] = [RemoveFile "b.js"; TerminalError msg]) \/
  (exists file,
      mv (world := world) ["a.js"; "b.js"] =
      [RemoveFile "b.js";
       TerminalPrint "Warning: The destination file was overwritten";
       SetFilename file "b.js"] \/
      mv (world := world) ["a.js"; "b.js"] =
      [RemoveFile "b.js";
       TerminalPrint "Warning: The destination file was overwritten";
       SetFn file "b.js"]).
Proof.
  apply (mv_overwrite_warns (world := world) ["a.js"; "b.js"] "b.js").
  left. reflexivity.
Defined.
